(** * SCIM schema validation and PATCH engine: a shallow embedding

    The development follows the Go sources of the repository:
    - package [schema]: [CoreAttribute.validate], [CoreAttribute.validateSingular],
      [Schema.validate], [Schema.ValidatePatchOperation], [cannotBePatched];
    - package [scim], [resource_type.go]: [ResourceType.schemaWithCommon],
      [ResourceType.validateOperationValue], [ResourceType.validatePatch].

    Conventions of the embedding.
    - A Go [interface{}] holding a decoded JSON document is the inductive [value].
    - A Go [map[string]interface{}] is an association list.  When the map is
      read with [range], the list is the order in which that run visits the
      entries (Go leaves the order unspecified, so statements quantify over
      every order); when the map is written with [m[k] = v], [mset] replaces
      the entry of an existing key and adds a missing one; [m[k]] on a
      missing key is [VNil], as in Go.
    - A function returning [(T, *errors.ScimError)] returns an [outcome T]:
      [Ok], [Err], or [Panic] when the Go code aborts with a run-time panic.
    - Strings are byte strings.  [strings.EqualFold] and [strings.ToLower]
      are those of the Go library, which work on Unicode text: they are
      taken as given, with the few facts about them that the proofs use;
      the examples run on text in ASCII, where folding touches the letters
      A to Z only. *)

From Stdlib Require Import String Ascii List ZArith Bool Lia DecimalString.
Import ListNotations.
Open Scope string_scope.
Set Warnings "-register-all".

(** ** Strings: the parts of Go's [strings] and [fmt] packages that are used *)

Module strings.

(** [strings.EqualFold] (equality under Unicode case folding) and
    [strings.ToLower] of the Go library, with what the development uses of
    them: folding is reflexive and symmetric, lower-casing twice is
    lower-casing once, and lower-casing first does not change whether a
    string folds to "manager" (the letters of that word are reached, by
    folding and by lower-casing alike, from themselves and their capitals
    only). *)
Class Folding := {
  EqualFold : string -> string -> bool;
  ToLower : string -> string;
  fold_refl : forall s, EqualFold s s = true;
  fold_sym : forall s t, EqualFold s t = EqualFold t s;
  lower_idempotent : forall s, ToLower (ToLower s) = ToLower s;
  fold_lower_manager : forall s, EqualFold (ToLower s) "manager" = EqualFold s "manager"
}.

(** The two functions on text in ASCII, for the examples. *)
Definition lowerAscii (c : ascii) : ascii :=
  let n := nat_of_ascii c in
  if (65 <=? n)%nat && (n <=? 90)%nat then ascii_of_nat (n + 32) else c.

Fixpoint ToLowerAscii (s : string) : string :=
  match s with
  | EmptyString => EmptyString
  | String c s' => String (lowerAscii c) (ToLowerAscii s')
  end.

Definition EqualFoldAscii (s t : string) : bool :=
  String.eqb (ToLowerAscii s) (ToLowerAscii t).

End strings.

Module fmt.

(** [fmt.Sprint] of a non-negative [int]. *)
Definition Sprint (n : nat) : string := NilZero.string_of_uint (Nat.to_uint n).

End fmt.

(** ** Data model *)

Inductive attributeType :=
| attributeDataTypeBinary
| attributeDataTypeBoolean
| attributeDataTypeComplex
| attributeDataTypeDateTime
| attributeDataTypeDecimal
| attributeDataTypeInteger
| attributeDataTypeReference
| attributeDataTypeString
| attributeDataTypeUnrecognized.

Inductive attributeMutability :=
| attributeMutabilityImmutable
| attributeMutabilityReadOnly
| attributeMutabilityReadWrite
| attributeMutabilityWriteOnly.

Inductive attributeReturned :=
| attributeReturnedAlways
| attributeReturnedDefault
| attributeReturnedNever
| attributeReturnedRequest.

Inductive attributeUniqueness :=
| attributeUniquenessGlobal
| attributeUniquenessNone
| attributeUniquenessServer.

Inductive CoreAttribute := mkCoreAttribute {
  canonicalValues : list string;
  caseExact : bool;
  description : option string;
  multiValued : bool;
  mutability : attributeMutability;
  name : string;
  referenceTypes : list string;
  required : bool;
  returned : attributeReturned;
  subAttributes : list CoreAttribute;
  typ : attributeType;
  uniqueness : attributeUniqueness
}.

Definition Attributes := list CoreAttribute.

Record Schema := mkSchema {
  Attributes_ : Attributes;
  Description : option string;
  ID : string;
  Name : option string
}.

(** The dynamic content of an [interface{}]: [VNil] is the nil interface (a
    JSON null or a missing entry), [VNumber] a [json.Number] (the literal as
    written), [VFloat] a [float64] (its 64 bits), [VInt] a value of one of
    [int], [int8], [int16], [int32], [int64]. *)
Inductive value :=
| VNil
| VBool (b : bool)
| VString (s : string)
| VNumber (n : string)
| VFloat (bits : Z)
| VInt (i : Z)
| VList (arr : list value)
| VMap (m : list (string * value)).

Definition gomap := list (string * value).

Fixpoint mlookup (k : string) (m : gomap) : option value :=
  match m with
  | [] => None
  | (k', v) :: m' => if String.eqb k' k then Some v else mlookup k m'
  end.

(** [m[k]] *)
Definition mget (k : string) (m : gomap) : value :=
  match mlookup k m with
  | Some v => v
  | None => VNil
  end.

(** [m[k] = v] *)
Fixpoint mset (k : string) (v : value) (m : gomap) : gomap :=
  match m with
  | [] => [(k, v)]
  | (k', v') :: m' =>
      if String.eqb k' k then (k, v) :: m' else (k', v') :: mset k v m'
  end.

Definition keys (m : gomap) : list string := map fst m.

(** ** Errors *)

Inductive scimType :=
| ScimTypeInvalidSyntax
| ScimTypeInvalidValue
| ScimTypeInvalidPath
| ScimTypeInvalidFilter
| ScimTypeMutability
| ScimTypeDuplicateAttributeFound.

Record ScimError := mkScimError {
  ScimType : scimType;
  Detail : string;
  Status : Z
}.

Module errors.

(** Modelled from the spec: the error templates of package [errors] are not
    among the sources.  The taxonomy of the spec gives one template per
    kind of error; the fixed sentence each template carries in [Detail] is
    stood for by the name of the kind, and the status is that of a
    rejected request.  The code only ever copies [ScimType] and [Status]
    and appends to [Detail]. *)
Definition template (t : scimType) (sentence : string) : ScimError :=
  {| ScimType := t; Detail := sentence; Status := 400 |}.

Definition ScimErrorInvalidSyntax := template ScimTypeInvalidSyntax "InvalidSyntax.".
Definition ScimErrorInvalidValue := template ScimTypeInvalidValue "InvalidValue.".
Definition ScimErrorInvalidPath := template ScimTypeInvalidPath "InvalidPath.".
Definition ScimErrorInvalidFilter := template ScimTypeInvalidFilter "InvalidFilter.".
Definition ScimErrorMutability := template ScimTypeMutability "Mutability.".
Definition ScimErrorDuplicateAttributeFound :=
  template ScimTypeDuplicateAttributeFound "DuplicateAttributeFound.".

(** Modelled from the spec: [ScimError.Error()], the text of the error when
    it is quoted inside another one, is its detail. *)
Definition Error (e : ScimError) : string := Detail e.

End errors.

(** The composite literal
    [errors.ScimError{ScimType: t.ScimType, Detail: t.Detail + suffix, Status: t.Status}]. *)
Definition derive (t : ScimError) (suffix : string) : ScimError :=
  {| ScimType := ScimType t; Detail := Detail t ++ suffix; Status := Status t |}.

Inductive outcome (A : Type) :=
| Ok (a : A)
| Err (e : ScimError)
| Panic (msg : string).

Arguments Ok {A} a.
Arguments Err {A} e.
Arguments Panic {A} msg.

(** ** PATCH paths (package [filter-parser]) and the path validator *)

Record AttributePath := mkAttributePath {
  URIPrefix : option string;
  AttributeName : string;
  AttributePath_SubAttribute : option string
}.

Record Path := mkPath {
  Path_AttributePath : AttributePath;
  Path_SubAttribute : option string
}.

Definition derefOr (p : option string) : string :=
  match p with
  | Some s => s
  | None => ""
  end.

Definition AttributePath_URI (p : AttributePath) : string := derefOr (URIPrefix p).

Definition AttributePath_SubAttributeName (p : AttributePath) : string :=
  derefOr (AttributePath_SubAttribute p).

Definition Path_SubAttributeName (p : Path) : string := derefOr (Path_SubAttribute p).

(** What [filter.NewPathValidator] hands back when it does not fail: the
    parsed path and the verdict of [Validate()] ([None] for a nil error). *)
Record Validator := mkValidator {
  Validator_Validate : option string;
  Validator_Path : Path
}.

(** ** Collaborators outside the engine

    The request context, the parsers of the Go standard library and of
    [xsd-datetime], and the path resolver are taken as given. *)
Class Externals := {
  (** [*http.Request] *)
  Request : Type;
  (** [json.Number.Float64]: the bits of the parsed [float64], or failure *)
  Float64 : string -> option Z;
  (** [datetime.Parse] succeeded *)
  datetime_Parse : string -> bool;
  (** [filter.NewPathValidator]: an error text, or a validator *)
  NewPathValidator : string -> Schema -> list Schema -> string + Validator
}.

(** ** CoreAttribute.validate and CoreAttribute.validateSingular *)

(** The regular expression of the binary type,
    [^([A-Za-z0-9+/]{4})*([A-Za-z0-9+/]{3}=|[A-Za-z0-9+/]{2}==)?$]. *)
Definition base64Char (c : ascii) : bool :=
  let n := nat_of_ascii c in
  ((65 <=? n) && (n <=? 90) || (97 <=? n) && (n <=? 122) ||
   (48 <=? n) && (n <=? 57) || (n =? 43) || (n =? 47))%nat.

Definition isPad (c : ascii) : bool := (nat_of_ascii c =? 61)%nat.

Fixpoint base64Match (s : string) : bool :=
  match s with
  | EmptyString => true
  | String c1 (String c2 (String c3 (String c4 rest))) =>
      if base64Char c1 && base64Char c2 && base64Char c3 && base64Char c4
      then base64Match rest
      else
        match rest with
        | EmptyString =>
            base64Char c1 && base64Char c2 &&
            ((base64Char c3 && isPad c4) || (isPad c3 && isPad c4))
        | _ => false
        end
  | _ => false
  end.

(** [validBooleanStrings], and the lookup [v, found := validBooleanStrings[s]]. *)
Definition validBooleanStrings : list (string * bool) :=
  [("True", true); ("False", false); ("true", true); ("false", false)].

Fixpoint lookupBoolean (s : string) (m : list (string * bool)) : option bool :=
  match m with
  | [] => None
  | (k, v) :: m' => if String.eqb k s then Some v else lookupBoolean s m'
  end.

(** [json.Number.Int64], that is [strconv.ParseInt(s, 10, 64)]: an optional
    sign, at least one decimal digit, and a value that fits 64 bits. *)
Fixpoint parseDigits (s : string) (acc : Z) : option Z :=
  match s with
  | EmptyString => Some acc
  | String c s' =>
      let n := nat_of_ascii c in
      if ((48 <=? n) && (n <=? 57))%nat
      then parseDigits s' (10 * acc + Z.of_nat (n - 48))
      else None
  end.

Definition parseUnsigned (s : string) : option Z :=
  match s with
  | EmptyString => None
  | _ => parseDigits s 0
  end.

Definition Int64 (s : string) : option Z :=
  match s with
  | EmptyString => None
  | String c s' =>
      if Ascii.eqb c "-" then
        match parseUnsigned s' with
        | Some un => if (un <=? 2 ^ 63)%Z then Some (- un)%Z else None
        | None => None
        end
      else
        match parseUnsigned (if Ascii.eqb c "+" then s' else s) with
        | Some un => if (un <? 2 ^ 63)%Z then Some un else None
        | None => None
        end
  end.

Definition invalidValue (suffix : string) : ScimError :=
  derive errors.ScimErrorInvalidValue suffix.

(** The scan [for k, v := range m { if strings.EqualFold(name, k) { ... } }]
    shared by the complex type and by [Schema.validate]: a second matching
    key is the error [dup], otherwise the flag [found] and the [hit]. *)
Fixpoint scanKeys {F : strings.Folding} (attrName : string) (dup : ScimError) (m : gomap)
    (found : bool) (hit : value) : outcome (bool * value) :=
  match m with
  | [] => Ok (found, hit)
  | (k, v) :: m' =>
      if strings.EqualFold attrName k
      then if found then Err dup else scanKeys attrName dup m' true v
      else scanKeys attrName dup m' found hit
  end.

Section Validation.

Context `{Externals}.
Context {F : strings.Folding}.

Section Loops.

(** The method [validate] of the sub-attributes. *)
Variable validate : CoreAttribute -> value -> outcome value.

(** The loop over the sub-attributes of a complex attribute [a]. *)
Fixpoint complexLoop (a : CoreAttribute) (complex : gomap)
    (subs : list CoreAttribute) (attributes : gomap) : outcome value :=
  match subs with
  | [] => Ok (VMap attributes)
  | sub :: subs' =>
      let dup :=
        invalidValue (" Duplicate attribute found inside of the complex attribute: " ++
                      name a ++ ". Duplicate attribute name: " ++ name sub) in
      match scanKeys (name sub) dup complex false VNil with
      | Ok (_, hit) =>
          match validate sub hit with
          | Ok attr => complexLoop a complex subs' (mset (name sub) attr attributes)
          | Err scimErr => Err scimErr
          | Panic msg => Panic msg
          end
      | Err e => Err e
      | Panic msg => Panic msg
      end
  end.

Definition validateSingular_ (a : CoreAttribute) (attribute : value) : outcome value :=
  match typ a with
  | attributeDataTypeBinary =>
      match attribute with
      | VString bin =>
          if base64Match bin then Ok (VString bin)
          else Err (invalidValue (" Attribute contains illegal characters for type: binary. Attribute name: " ++ name a))
      | _ => Err (invalidValue (" Binary attribute not the right type. Attribute name: " ++ name a))
      end
  | attributeDataTypeBoolean =>
      match attribute with
      | VBool b => Ok (VBool b)
      | VString s =>
          match lookupBoolean s validBooleanStrings with
          | Some v => Ok (VBool v)
          | None => Err (invalidValue (" Boolean attribute not the right type. Attribute name: " ++ name a))
          end
      | _ => Err (invalidValue (" Boolean attribute not the right type. Attribute name: " ++ name a))
      end
  | attributeDataTypeComplex =>
      match attribute with
      | VMap complex => complexLoop a complex (subAttributes a) []
      | _ =>
          if strings.EqualFold (strings.ToLower (name a)) "manager" then
            match attribute with
            | VString manager => Ok (VString manager)
            | _ => Err (invalidValue (" Complex attribute does not have the right structure. Attribute name: " ++ name a))
            end
          else Err (invalidValue (" Complex attribute does not have the right structure. Attribute name: " ++ name a))
      end
  | attributeDataTypeDateTime =>
      match attribute with
      | VString date =>
          if datetime_Parse date then Ok (VString date)
          else Err (invalidValue (" Date time attribute value is not in the right format - please ensure use supply date time in YYYY-MM-DDTHH:mm:ssZ format. Attribute name: " ++ name a))
      | _ => Err (invalidValue (" Date time attribute does not have the right type. Attribute name: " ++ name a))
      end
  | attributeDataTypeDecimal =>
      match attribute with
      | VNumber n =>
          match Float64 n with
          | Some f => Ok (VFloat f)
          | None => Err (invalidValue (" Decimal attribute value failed to parse as a decimal. Attribute name: " ++ name a))
          end
      | VFloat n => Ok (VFloat n)
      | _ => Err (invalidValue (" Decimal attribute value failed submitted with wrong type. Attribute name: " ++ name a))
      end
  | attributeDataTypeInteger =>
      match attribute with
      | VNumber n =>
          match Int64 n with
          | Some i => Ok (VInt i)
          | None => Err (invalidValue (" Integer attribute value failed to parse as an integer. Attribute name: " ++ name a))
          end
      | VInt n => Ok (VInt n)
      | _ => Err (invalidValue (" Integer attribute value failed to parse as an integer. Attribute name: " ++ name a))
      end
  | attributeDataTypeReference =>
      match attribute with
      | VString s => Ok (VString s)
      | _ => Err (invalidValue (" Reference attribute value is not of the right type. Attribute name: " ++ name a))
      end
  | attributeDataTypeString =>
      match attribute with
      | VString s => Ok (VString s)
      | _ => Err (invalidValue (" String attribute value is not of the right type. Attribute name: " ++ name a))
      end
  | attributeDataTypeUnrecognized =>
      Err (invalidValue (" Unrecognized attribute type. Attribute name: " ++ name a))
  end.

(** The legacy mapping of a multi-valued attribute: the inner loop over
    the sub-attributes for one entry [k, v] of the mapping. *)
Fixpoint legacyEntry (k : string) (v : value)
    (subs : list CoreAttribute) (validMap : gomap) : outcome gomap :=
  match subs with
  | [] => Ok validMap
  | sub :: subs' =>
      if negb (strings.EqualFold (name sub) k) then legacyEntry k v subs' validMap
      else
        match validate sub v with
        | Ok _ => legacyEntry k v subs' (mset (name sub) v validMap)
        | Err scimErr => Err scimErr
        | Panic msg => Panic msg
        end
  end.

End Loops.

Section Ranges.

Variable entry : string -> value -> gomap -> outcome gomap.

(** [for k, v := range arr { ... }] over the legacy mapping. *)
Fixpoint legacyLoop (arr : gomap) (validMap : gomap) : outcome gomap :=
  match arr with
  | [] => Ok validMap
  | (k, v) :: arr' =>
      match entry k v validMap with
      | Ok validMap' => legacyLoop arr' validMap'
      | Err scimErr => Err scimErr
      | Panic msg => Panic msg
      end
  end.

Variable singular : value -> outcome value.

(** [for i, ele := range arr { ... attributes[i] = attr }] over a list. *)
Fixpoint listLoop (arr : list value) : outcome (list value) :=
  match arr with
  | [] => Ok []
  | ele :: arr' =>
      match singular ele with
      | Ok attr =>
          match listLoop arr' with
          | Ok attributes => Ok (attr :: attributes)
          | Err scimErr => Err scimErr
          | Panic msg => Panic msg
          end
      | Err scimErr => Err scimErr
      | Panic msg => Panic msg
      end
  end.

End Ranges.

Definition isNil (v : value) : bool :=
  match v with
  | VNil => true
  | _ => false
  end.

Definition isReadOnlyMutability (m : attributeMutability) : bool :=
  match m with
  | attributeMutabilityReadOnly => true
  | _ => false
  end.

Definition isImmutableMutability (m : attributeMutability) : bool :=
  match m with
  | attributeMutabilityImmutable => true
  | _ => false
  end.

Fixpoint validate (a : CoreAttribute) (attribute : value) {struct a} : outcome value :=
  if isNil attribute then
    if negb (required a) then Ok VNil
    else Err (invalidValue (" Attribute name: " ++ name a))
  else if isReadOnlyMutability (mutability a) then Ok VNil
  else if negb (multiValued a) then validateSingular_ validate a attribute
  else
    match attribute with
    | VMap arr =>
        if required a && (length arr =? 0)%nat
        then Err (invalidValue (" Multivalued attribute was empty. Attribute name: " ++ name a))
        else
          match legacyLoop (fun k v validMap => legacyEntry validate k v (subAttributes a) validMap) arr [] with
          | Ok validMap => Ok (VMap validMap)
          | Err scimErr => Err scimErr
          | Panic msg => Panic msg
          end
    | VList arr =>
        if required a && (length arr =? 0)%nat
        then Err (invalidValue (" Multivalued attribute was empty. Attribute name: " ++ name a))
        else
          match listLoop (validateSingular_ validate a) arr with
          | Ok attributes => Ok (VList attributes)
          | Err scimErr => Err scimErr
          | Panic msg => Panic msg
          end
    | _ => Err (invalidValue (" Multivalued attribute was not an array. Attribute name: " ++ name a))
    end.

Definition validateSingular : CoreAttribute -> value -> outcome value :=
  validateSingular_ validate.

End Validation.

(** ** Schema: validate, Validate, ValidateMutability, ValidatePatchOperation *)

Definition isImmutable (op : string) (attr : CoreAttribute) : bool :=
  isImmutableMutability (mutability attr) &&
  (String.eqb op "replace" || String.eqb op "remove").

Definition isReadOnly (attr : CoreAttribute) : bool :=
  isReadOnlyMutability (mutability attr).

Definition cannotBePatched (op : string) (attr : CoreAttribute) : bool :=
  isImmutable op attr || isReadOnly attr.

(** The message of the run-time panic on a nil pointer. *)
Definition nilDereference : string :=
  "runtime error: invalid memory address or nil pointer dereference".

(** The search of [ValidatePatchOperation] for the attribute a key [k]
    names; [None] is the pointer [attr] left nil. *)
Fixpoint resolveAttribute {F : strings.Folding} (id : string) (isExtension : bool) (k : string)
    (attrs : Attributes) : option CoreAttribute :=
  match attrs with
  | [] => None
  | attribute :: attrs' =>
      if strings.EqualFold (name attribute) k then Some attribute
      else if isExtension && strings.EqualFold (id ++ ":" ++ name attribute) k
      then Some attribute
      else resolveAttribute id isExtension k attrs'
  end.

Section SchemaValidation.

Context `{Externals}.
Context {F : strings.Folding}.

(** The loop of [Schema.validate] over the attributes of the schema. *)
Fixpoint validateLoop (checkMutability : bool) (core : gomap)
    (attrs : Attributes) (attributes : gomap) : outcome gomap :=
  match attrs with
  | [] => Ok attributes
  | attribute :: attrs' =>
      let dup := derive errors.ScimErrorDuplicateAttributeFound
                        (" Attribute name: " ++ name attribute) in
      match scanKeys (name attribute) dup core false VNil with
      | Ok (found, hit) =>
          if found && checkMutability && isImmutableMutability (mutability attribute)
          then Err (derive errors.ScimErrorMutability (" Attribute name: " ++ name attribute))
          else
            match validate attribute hit with
            | Ok attr => validateLoop checkMutability core attrs'
                           (mset (name attribute) attr attributes)
            | Err scimErr => Err scimErr
            | Panic msg => Panic msg
            end
      | Err e => Err e
      | Panic msg => Panic msg
      end
  end.

Definition Schema_validate (s : Schema) (resource : value) (checkMutability : bool)
    : outcome gomap :=
  match resource with
  | VMap core => validateLoop checkMutability core (Attributes_ s) []
  | _ => Err errors.ScimErrorInvalidSyntax
  end.

Definition Schema_Validate (s : Schema) (resource : value) : outcome gomap :=
  Schema_validate s resource false.

Definition Schema_ValidateMutability (s : Schema) (resource : value) : outcome gomap :=
  Schema_validate s resource true.

(** The loop of [ValidatePatchOperation] over the entries of the operation
    value.  When no attribute resolves, the error literal reads
    [attr.name] through the nil pointer [attr]: the run panics. *)
Fixpoint patchLoop (s : Schema) (operation : string) (isExtension : bool)
    (operationValue : gomap) (value : gomap) : outcome gomap :=
  match operationValue with
  | [] => Ok value
  | (k, v) :: rest =>
      match resolveAttribute (ID s) isExtension k (Attributes_ s) with
      | None => Panic nilDereference
      | Some attr =>
          if cannotBePatched operation attr
          then Err (invalidValue (" Attribute " ++ name attr ++
                 " does not exist in the schema, or is immutable in the schema, and therefore cannot be patched."))
          else
            match validate attr v with
            | Ok newValue => patchLoop s operation isExtension rest (mset k newValue value)
            | Err scimErr => Err scimErr
            | Panic msg => Panic msg
            end
      end
  end.

Definition Schema_ValidatePatchOperation (s : Schema) (operation : string)
    (operationValue : gomap) (isExtension : bool) : outcome gomap :=
  patchLoop s operation isExtension operationValue [].

Definition Schema_ValidatePatchOperationValue (s : Schema) (operation : string)
    (operationValue : gomap) : outcome gomap :=
  Schema_ValidatePatchOperation s operation operationValue false.

End SchemaValidation.

(** ** ResourceType: schemaWithCommon, validateOperationValue, validatePatch *)

Section Resources.

Context `{Externals}.
Context {F : strings.Folding}.

(** [SchemaLoader] is an interface with the one method [LoadSchema]. *)
Record SchemaExtension := mkSchemaExtension {
  Extension_Schema : Schema;
  Extension_Required : bool;
  LoadDynamically : bool;
  LoadSchema : Request -> Schema
}.

(** The fields of a resource type that validation reads. *)
Record ResourceType := mkResourceType {
  ResourceType_Schema : Schema;
  SchemaExtensions : list SchemaExtension
}.

Record PatchOperation := mkPatchOperation {
  Op : string;
  Path_ : option Path;
  Value : value
}.

Record PatchRequest := mkPatchRequest {
  Schemas : list string;
  Operations : list PatchOperation
}.

(** An element of [req.Operations], as decoded from the request body. *)
Record rawOperation := mkRawOperation {
  rawOp : string;
  rawPath : string;
  rawValue : value
}.

(** The request body as [validatePatch] meets it: unreadable, not
    decodable, or decoded into [req]. *)
Inductive body :=
| ReadFailed
| DecodeFailed
| Decoded (schemas : list string) (operations : list rawOperation).

Definition PatchOperationAdd := "add".
Definition PatchOperationRemove := "remove".
Definition PatchOperationReplace := "replace".

(** Modelled from the spec: the constructors of package [schema] that
    build the common attribute are not among the sources; the attribute is
    the string [externalId], case exact, readWrite, with uniqueness none. *)
Definition externalID : CoreAttribute :=
  {| canonicalValues := []; caseExact := true; description := None;
     multiValued := false; mutability := attributeMutabilityReadWrite;
     name := "externalId"; referenceTypes := []; required := false;
     returned := attributeReturnedDefault; subAttributes := [];
     typ := attributeDataTypeString; uniqueness := attributeUniquenessNone |}.

Definition schemaWithCommon (t : ResourceType) : Schema :=
  let s := ResourceType_Schema t in
  {| Attributes_ := (Attributes_ s ++ [externalID])%list;
     Description := Description s; ID := ID s; Name := Name s |}.

Definition getSchemaExtensions (t : ResourceType) (r : Request) : list Schema :=
  map (fun e => if LoadDynamically e then LoadSchema e r else Extension_Schema e)
      (SchemaExtensions t).

(** The sub-attribute a path names: that of the attribute path, or else
    the one after the value filter. *)
Definition pathSubAttributeName (path : Path) : string :=
  let subAttributeName := AttributePath_SubAttributeName (Path_AttributePath path) in
  if String.eqb subAttributeName "" then Path_SubAttributeName path else subAttributeName.

(** The value map [validateOperationValue] hands to the schema. *)
Definition operationMapValue (path : Path) (v : value) : gomap :=
  let attributeName := AttributeName (Path_AttributePath path) in
  let subAttributeName := pathSubAttributeName path in
  match v with
  | VMap m => m
  | _ =>
      if String.eqb subAttributeName "" then [(attributeName, v)]
      else [(attributeName, VMap [(subAttributeName, v)])]
  end.

(** The search for the extension whose schema id matches the path's URI. *)
Fixpoint findExtension (id : string) (exts : list SchemaExtension) : option SchemaExtension :=
  match exts with
  | [] => None
  | ext :: exts' =>
      if strings.EqualFold id (ID (Extension_Schema ext)) then Some ext
      else findExtension id exts'
  end.

(** [op.Path] is set by [validatePatch] before the call; a nil path would
    be dereferenced. *)
Definition validateOperationValue (t : ResourceType) (op : PatchOperation) (r : Request)
    : outcome gomap :=
  match Path_ op with
  | None => Panic nilDereference
  | Some path =>
      let attributeName := AttributeName (Path_AttributePath path) in
      let mapValue := operationMapValue path (Value op) in
      let id := AttributePath_URI (Path_AttributePath path) in
      let base := Schema_ValidatePatchOperationValue (schemaWithCommon t) (Op op) mapValue in
      if negb (String.eqb attributeName "") && negb (String.eqb id "") then
        match findExtension id (SchemaExtensions t) with
        | Some ext =>
            if LoadDynamically ext
            then Schema_ValidatePatchOperation (LoadSchema ext r) (Op op) mapValue true
            else Schema_ValidatePatchOperation (Extension_Schema ext) (Op op) mapValue true
        | None => base
        end
      else base
  end.

Definition isKnownOp (op : string) : bool :=
  String.eqb op PatchOperationAdd || String.eqb op PatchOperationReplace ||
  String.eqb op PatchOperationRemove.

Definition patchError (t : ScimError) (index : nat) (suffix : string) : ScimError :=
  derive t (" Operation number: " ++ fmt.Sprint (index + 1) ++ suffix).

(** The value written back into the operation after a successful
    validation: the entry of [val] under the path's keys; the operation
    keeps its value when the entry under the attribute name is no mapping. *)
Definition canonicalValue (path : Path) (val : gomap) (old : value) : value :=
  let attributeName := AttributeName (Path_AttributePath path) in
  if String.eqb (AttributePath_SubAttributeName (Path_AttributePath path)) "" then
    match Path_SubAttribute path with
    | None => mget attributeName val
    | Some sub =>
        if String.eqb sub "" then mget attributeName val
        else
          match mget attributeName val with
          | VMap subAttrMap => mget sub subAttrMap
          | _ => old
          end
    end
  else
    match mget attributeName val with
    | VMap subAttrMap =>
        mget (AttributePath_SubAttributeName (Path_AttributePath path)) subAttrMap
    | _ => old
    end.

(** The body of the loop of [validatePatch] for the operation [v] at the
    0-based position [index]. *)
Definition validateOperation (t : ResourceType) (r : Request) (index : nat)
    (v : rawOperation) : outcome PatchOperation :=
  let validator := NewPathValidator (rawPath v) (schemaWithCommon t) (getSchemaExtensions t r) in
  let vOp := strings.ToLower (rawOp v) in
  let pathError (msg : string) :=
    patchError errors.ScimErrorInvalidPath index (", has failed validation. " ++ msg) in
  let checked : option ScimError :=
    if String.eqb vOp PatchOperationAdd || String.eqb vOp PatchOperationReplace then
      match validator with
      | inl err => if negb (String.eqb (rawPath v) "") then Some (pathError err) else None
      | inr _ => None
      end
    else if String.eqb vOp PatchOperationRemove then
      match validator with
      | inl err => Some (pathError err)
      | inr _ => None
      end
    else Some (patchError errors.ScimErrorInvalidFilter index
                 ", has an unrecognized operation type.") in
  match checked with
  | Some e => Err e
  | None =>
      let op := {| Op := strings.ToLower vOp; Path_ := None; Value := rawValue v |} in
      match validator with
      | inl _ => Ok op
      | inr validator =>
          match Validator_Validate validator with
          | Some err => Err (pathError err)
          | None =>
              let p := Validator_Path validator in
              let op := {| Op := Op op; Path_ := Some p; Value := Value op |} in
              match validateOperationValue t op r with
              | Err err =>
                  Err (patchError errors.ScimErrorInvalidValue index
                         (", has failed validation. " ++ errors.Error err))
              | Panic msg => Panic msg
              | Ok val =>
                  Ok {| Op := Op op; Path_ := Path_ op;
                        Value := canonicalValue p val (Value op) |}
              end
          end
      end
  end.

(** [for index, v := range req.Operations { ... append(patchReq.Operations, op) }] *)
Fixpoint operationsLoop (t : ResourceType) (r : Request) (index : nat)
    (ops : list rawOperation) (done : list PatchOperation) : outcome (list PatchOperation) :=
  match ops with
  | [] => Ok done
  | v :: ops' =>
      match validateOperation t r index v with
      | Ok op => operationsLoop t r (S index) ops' (done ++ [op])%list
      | Err e => Err e
      | Panic msg => Panic msg
      end
  end.

Definition validatePatch (t : ResourceType) (r : Request) (b : body) : outcome PatchRequest :=
  match b with
  | ReadFailed => Err (derive errors.ScimErrorInvalidSyntax " Failed to read request body. ")
  | DecodeFailed => Err (derive errors.ScimErrorInvalidSyntax " Failed to parse request body.")
  | Decoded schemas operations =>
      if (length operations <? 1)%nat
      then Err (derive errors.ScimErrorInvalidValue " Zero operations found in request body.")
      else
        match operationsLoop t r 0 operations [] with
        | Ok ops => Ok {| Schemas := schemas; Operations := ops |}
        | Err e => Err e
        | Panic msg => Panic msg
        end
  end.

End Resources.

(** ** Specification-side definitions and sample data *)

(** The value of the entry of [core] whose key matches [attrName] without
    regard to case, [VNil] when there is none. *)
Fixpoint hitOf {F : strings.Folding} (attrName : string) (core : gomap) : value :=
  match core with
  | [] => VNil
  | (k, v) :: core' => if strings.EqualFold attrName k then v else hitOf attrName core'
  end.

(** Whether [core] supplies a key for [attrName]. *)
Definition supplied {F : strings.Folding} (attrName : string) (core : gomap) : bool :=
  existsb (fun kv => strings.EqualFold attrName (fst kv)) core.

(** Whether some attribute of [attrs] covers the input key [k]. *)
Definition covered {F : strings.Folding} (attrs : Attributes) (kv : string * value) : bool :=
  existsb (fun a => strings.EqualFold (name a) (fst kv)) attrs.

(** The legacy mapping in the words of its description: every input value
    whose key matches a sub-attribute, as it was given, under the name of
    that sub-attribute. *)
Fixpoint legacyEntryMapping {F : strings.Folding} (k : string) (v : value) (subs : list CoreAttribute)
    (validMap : gomap) : gomap :=
  match subs with
  | [] => validMap
  | sub :: subs' =>
      if strings.EqualFold (name sub) k
      then legacyEntryMapping k v subs' (mset (name sub) v validMap)
      else legacyEntryMapping k v subs' validMap
  end.

Fixpoint legacyMapping {F : strings.Folding} (subs : list CoreAttribute) (arr : gomap) (validMap : gomap) : gomap :=
  match arr with
  | [] => validMap
  | (k, v) :: arr' => legacyMapping subs arr' (legacyEntryMapping k v subs validMap)
  end.

(** The value under the path's keys in a validated mapping, in the words of
    the description of PATCH: the entry under the attribute name, and inside
    it the entry under the sub-attribute name when the path has one. *)
Definition extracted (attributeName subAttributeName : string) (val : gomap) : value :=
  if String.eqb subAttributeName "" then mget attributeName val
  else
    match mget attributeName val with
    | VMap subAttrMap => mget subAttributeName subAttrMap
    | _ => VNil
    end.

Definition simpleAttribute (n : string) (t : attributeType) (m : attributeMutability)
    (req multi : bool) : CoreAttribute :=
  {| canonicalValues := []; caseExact := false; description := None;
     multiValued := multi; mutability := m; name := n; referenceTypes := [];
     required := req; returned := attributeReturnedDefault; subAttributes := [];
     typ := t; uniqueness := attributeUniquenessNone |}.

Definition complexAttribute (n : string) (m : attributeMutability) (req multi : bool)
    (subs : list CoreAttribute) : CoreAttribute :=
  {| canonicalValues := []; caseExact := false; description := None;
     multiValued := multi; mutability := m; name := n; referenceTypes := [];
     required := req; returned := attributeReturnedDefault; subAttributes := subs;
     typ := attributeDataTypeComplex; uniqueness := attributeUniquenessNone |}.

(** A path resolver for the examples: [attr] and [attr.sub], the empty path
    being a parse error. *)
Fixpoint splitDot (s : string) : string * option string :=
  match s with
  | EmptyString => (EmptyString, None)
  | String c s' =>
      if Ascii.eqb c "." then (EmptyString, Some s')
      else let (h, t) := splitDot s' in (String c h, t)
  end.

Definition samplePathValidator (p : string) (_ : Schema) (_ : list Schema) : string + Validator :=
  match p with
  | EmptyString => inl "empty path"
  | _ =>
      let (attr, sub) := splitDot p in
      inr {| Validator_Validate := None;
             Validator_Path :=
               {| Path_AttributePath :=
                    {| URIPrefix := None; AttributeName := attr;
                       AttributePath_SubAttribute := sub |};
                  Path_SubAttribute := None |} |}
  end.

(** Folding on text in ASCII, on which the examples run. *)
#[export] Instance asciiFolding : strings.Folding.
Proof.
  assert (Hc : forall c, strings.lowerAscii (strings.lowerAscii c) = strings.lowerAscii c)
    by (intros c; destruct c as [[] [] [] [] [] [] [] []]; reflexivity).
  assert (Hs : forall s, strings.ToLowerAscii (strings.ToLowerAscii s) = strings.ToLowerAscii s).
  { induction s as [|c s IH]; simpl; [reflexivity | now rewrite Hc, IH]. }
  refine {| strings.EqualFold := strings.EqualFoldAscii;
            strings.ToLower := strings.ToLowerAscii |}.
  - intros s. apply String.eqb_refl.
  - intros s t. apply String.eqb_sym.
  - exact Hs.
  - intros s. unfold strings.EqualFoldAscii. now rewrite Hs.
Defined.

(** The collaborators of the examples: no request context, no decimal and
    no date accepted (the examples use neither), the sample resolver. *)
#[export] Instance sampleExternals : Externals :=
  {| Request := unit;
     Float64 := fun _ => None;
     datetime_Parse := fun _ => false;
     NewPathValidator := samplePathValidator |}.

Definition sampleActive : CoreAttribute :=
  simpleAttribute "active" attributeDataTypeBoolean attributeMutabilityReadWrite false false.

Definition sampleUserName : CoreAttribute :=
  simpleAttribute "userName" attributeDataTypeString attributeMutabilityReadWrite true false.

Definition sampleId : CoreAttribute :=
  simpleAttribute "id" attributeDataTypeString attributeMutabilityReadOnly false false.

Definition sampleEmployeeNumber : CoreAttribute :=
  simpleAttribute "employeeNumber" attributeDataTypeString attributeMutabilityImmutable false false.

Definition sampleCostCenter : CoreAttribute :=
  simpleAttribute "costCenter" attributeDataTypeString attributeMutabilityImmutable false false.

Definition sampleName : CoreAttribute :=
  complexAttribute "name" attributeMutabilityReadWrite false false
    [simpleAttribute "givenName" attributeDataTypeString attributeMutabilityReadWrite false false;
     simpleAttribute "familyName" attributeDataTypeString attributeMutabilityReadWrite false false].

Definition sampleManager : CoreAttribute :=
  complexAttribute "Manager" attributeMutabilityReadWrite false false
    [simpleAttribute "value" attributeDataTypeString attributeMutabilityReadWrite false false].

Definition sampleEmails : CoreAttribute :=
  complexAttribute "emails" attributeMutabilityReadWrite false true
    [simpleAttribute "value" attributeDataTypeString attributeMutabilityReadWrite false false;
     simpleAttribute "primary" attributeDataTypeBoolean attributeMutabilityReadWrite false false].

Definition sampleSchema : Schema :=
  {| Attributes_ := [sampleUserName; sampleId; sampleActive; sampleName; sampleEmails;
                     sampleEmployeeNumber; sampleCostCenter];
     Description := None;
     ID := "urn:ietf:params:scim:schemas:core:2.0:User";
     Name := Some "User" |}.

Definition sampleResourceType : ResourceType :=
  {| ResourceType_Schema := sampleSchema; SchemaExtensions := [] |}.

(** Documents and requests of the examples. *)
Definition sampleDocument : gomap :=
  [("userName", VString "bob"); ("id", VString "7"); ("shoeSize", VBool true)].

Definition sampleValidated : gomap :=
  [("userName", VString "bob"); ("id", VNil); ("active", VNil); ("name", VNil);
   ("emails", VNil); ("employeeNumber", VNil); ("costCenter", VNil)].

Definition sampleReadOnlyDocument : gomap :=
  [("userName", VString "ann"); ("id", VString "42")].

Definition sampleReadOnlyValidated : gomap :=
  [("userName", VString "ann"); ("id", VNil); ("active", VNil); ("name", VNil);
   ("emails", VNil); ("employeeNumber", VNil); ("costCenter", VNil)].

Definition sampleGroups : CoreAttribute :=
  complexAttribute "groups" attributeMutabilityReadOnly false true
    [simpleAttribute "value" attributeDataTypeString attributeMutabilityReadWrite false false].

Definition sampleImmutableDocument : gomap :=
  [("userName", VString "bob"); ("employeeNumber", VString "7"); ("costCenter", VString "c")].

Definition sampleReplaceActive : rawOperation :=
  {| rawOp := "Replace"; rawPath := "active"; rawValue := VString "true" |}.

Definition sampleMove : rawOperation :=
  {| rawOp := "move"; rawPath := "active"; rawValue := VNil |}.

Definition sampleRemoveNoPath : rawOperation :=
  {| rawOp := "remove"; rawPath := ""; rawValue := VNil |}.

Definition sampleAddMapping : rawOperation :=
  {| rawOp := "add"; rawPath := "name.givenName";
     rawValue := VMap [("userName", VString "bob")] |}.

Definition samplePath (attr : string) (sub : option string) : Path :=
  {| Path_AttributePath :=
       {| URIPrefix := None; AttributeName := attr; AttributePath_SubAttribute := sub |};
     Path_SubAttribute := None |}.

(** ** Errors and outcomes named in the statements *)

Definition wrongStructure (a : CoreAttribute) : ScimError :=
  derive errors.ScimErrorInvalidValue
    (" Complex attribute does not have the right structure. Attribute name: " ++ name a).

Definition notBoolean (a : CoreAttribute) : ScimError :=
  derive errors.ScimErrorInvalidValue
    (" Boolean attribute not the right type. Attribute name: " ++ name a).

Definition mutabilityError (a : CoreAttribute) : ScimError :=
  derive errors.ScimErrorMutability (" Attribute name: " ++ name a).

Definition cannotPatchError (attr : CoreAttribute) : ScimError :=
  derive errors.ScimErrorInvalidValue
    (" Attribute " ++ name attr ++
     " does not exist in the schema, or is immutable in the schema, and therefore cannot be patched.").

Definition unknownOpError (index : nat) : ScimError :=
  derive errors.ScimErrorInvalidFilter
    (" Operation number: " ++ fmt.Sprint (index + 1) ++
     ", has an unrecognized operation type.").

(** What a call of [validate] or [validateSingular] can end in: a value, or
    an InvalidValue error; never a panic. *)
Definition sound (o : outcome value) : Prop :=
  match o with
  | Ok _ => True
  | Err e => ScimType e = ScimTypeInvalidValue
  | Panic _ => False
  end.

(** ** Further functions of the sources *)

(** [Attributes.ContainsAttribute]; [None] stands for the pair of the zero
    attribute and [false]. *)
Fixpoint ContainsAttribute {F : strings.Folding} (attrs : Attributes) (attrName : string) : option CoreAttribute :=
  match attrs with
  | [] => None
  | a :: attrs' =>
      if strings.EqualFold attrName (name a) then Some a else ContainsAttribute attrs' attrName
  end.

(** The parameters of the constructors: [SimpleParams], whose fields the
    constructors copy, and [ComplexParams], with the wrappers of its
    mutability, returned and uniqueness fields unwrapped. *)
Record SimpleParams := mkSimpleParams {
  sp_canonicalValues : list string;
  sp_caseExact : bool;
  sp_description : option string;
  sp_multiValued : bool;
  sp_mutability : attributeMutability;
  sp_name : string;
  sp_referenceTypes : list string;
  sp_required : bool;
  sp_returned : attributeReturned;
  sp_typ : attributeType;
  sp_uniqueness : attributeUniqueness
}.

Record ComplexParams := mkComplexParams {
  cp_Description : option string;
  cp_MultiValued : bool;
  cp_Mutability : attributeMutability;
  cp_Name : string;
  cp_Required : bool;
  cp_Returned : attributeReturned;
  cp_SubAttributes : list SimpleParams;
  cp_Uniqueness : attributeUniqueness
}.

(** The sub-attribute [ComplexCoreAttribute] builds from the parameters [a]:
    every field but the sub-attributes. *)
Definition subAttributeOf (a : SimpleParams) : CoreAttribute :=
  {| canonicalValues := sp_canonicalValues a; caseExact := sp_caseExact a;
     description := sp_description a; multiValued := sp_multiValued a;
     mutability := sp_mutability a; name := sp_name a;
     referenceTypes := sp_referenceTypes a; required := sp_required a;
     returned := sp_returned a; subAttributes := []; typ := sp_typ a;
     uniqueness := sp_uniqueness a |}.

(** [j, ok := names[name]] on the map [names] of lower-cased names. *)
Fixpoint lookupName (n : string) (names : list (string * nat)) : option nat :=
  match names with
  | [] => None
  | (k, j) :: names' => if String.eqb k n then Some j else lookupName n names'
  end.

Definition dquote : string := String (ascii_of_nat 34) EmptyString.

(** The loop of [ComplexCoreAttribute] over [params.SubAttributes]; the
    text of the panic is the one [fmt.Errorf] gives for a plain name. *)
Fixpoint subAttributesLoop {F : strings.Folding} (i : nat) (subs : list SimpleParams)
    (names : list (string * nat)) (sa : list CoreAttribute) : outcome (list CoreAttribute) :=
  match subs with
  | [] => Ok sa
  | a :: subs' =>
      let n := strings.ToLower (sp_name a) in
      match lookupName n names with
      | Some j =>
          Panic ("duplicate name " ++ dquote ++ n ++ dquote ++ " for sub-attributes " ++
                 fmt.Sprint i ++ " and " ++ fmt.Sprint j)
      | None => subAttributesLoop (S i) subs' ((n, i) :: names) (sa ++ [subAttributeOf a])%list
      end
  end.

(** The text with which [checkAttributeName], when it rejects a name, is
    taken to panic. *)
Definition invalidName (n : string) : string := "invalid attribute name " ++ n.

(** Helpers that the sources call and do not define, and library functions
    of the query handling. *)
Class Helpers := {
  (** [checkAttributeName] returns (it panics otherwise) *)
  checkAttributeName : string -> bool;
  (** [filter.Expression] *)
  Expression : Type;
  (** [filter.ParseFilter]: [None] for an error *)
  ParseFilter : string -> option Expression;
  (** [strings.TrimSpace] *)
  TrimSpace : string -> string;
  (** [url.QueryUnescape], its error dropped *)
  QueryUnescape : string -> string;
  (** [errors.ScimErrorBadParams] *)
  ScimErrorBadParams : list string -> ScimError
}.

Section Constructors.

Context `{Helpers}.
Context {F : strings.Folding}.

Definition ComplexCoreAttribute (params : ComplexParams) : outcome CoreAttribute :=
  if negb (checkAttributeName (cp_Name params)) then Panic (invalidName (cp_Name params))
  else
    match subAttributesLoop 0 (cp_SubAttributes params) [] [] with
    | Ok sa =>
        Ok {| canonicalValues := []; caseExact := false;
              description := cp_Description params; multiValued := cp_MultiValued params;
              mutability := cp_Mutability params; name := cp_Name params;
              referenceTypes := []; required := cp_Required params;
              returned := cp_Returned params; subAttributes := sa;
              typ := attributeDataTypeComplex; uniqueness := cp_Uniqueness params |}
    | Err e => Err e
    | Panic msg => Panic msg
    end.

Definition SimpleCoreAttribute (params : SimpleParams) : outcome CoreAttribute :=
  if negb (checkAttributeName (sp_name params)) then Panic (invalidName (sp_name params))
  else Ok (subAttributeOf params).

(** *** Query parameters *)

(** [strconv.Atoi] on a 64-bit platform. *)
Definition Atoi (s : string) : option Z := Int64 s.

(** [getIntQueryParam], on the value [strVal] the query holds for [key]. *)
Definition getIntQueryParam (strVal : string) (key : string) (def : Z) : Z * option string :=
  if String.eqb strVal "" then (def, None)
  else
    match Atoi strVal with
    | Some intVal => (intVal, None)
    | None => (0%Z, Some ("invalid query parameter, " ++ dquote ++ key ++ dquote ++
                          " must be an integer"))
    end.

(** [getFilter]: no expression and no error, an expression, or an error. *)
Definition getFilter (query : string -> string) : option Expression * bool :=
  let rawFilter := TrimSpace (query "filter") in
  let decodedFilter := QueryUnescape rawFilter in
  if negb (String.eqb decodedFilter "") then
    match ParseFilter decodedFilter with
    | Some e => (Some e, false)
    | None => (None, true)
    end
  else (None, false).

Record ListRequestParams := mkListRequestParams {
  Count : Z;
  Filter : option Expression;
  StartIndex : Z
}.

Definition defaultStartIndex : Z := 1.

(** [Server.parseRequestParams]: [defaultCount] is [s.Config.getItemsPerPage()]
    and [query] is [r.URL.Query().Get]. *)
Definition parseRequestParams (defaultCount : Z) (query : string -> string)
    : outcome ListRequestParams :=
  let invalidParams : list string := [] in
  let (count, countErr) := getIntQueryParam (query "count") "count" defaultCount in
  let invalidParams :=
    match countErr with Some _ => (invalidParams ++ ["count"])%list | None => invalidParams end in
  let count := if (count >? defaultCount)%Z then defaultCount else count in
  let count := if (count <? 0)%Z then 0%Z else count in
  let (startIndex, indexErr) :=
    getIntQueryParam (query "startIndex") "startIndex" defaultStartIndex in
  let invalidParams :=
    match indexErr with Some _ => (invalidParams ++ ["startIndex"])%list | None => invalidParams end in
  let startIndex := if (startIndex <? 1)%Z then defaultStartIndex else startIndex in
  if (1 <? length invalidParams)%nat then Err (ScimErrorBadParams invalidParams)
  else
    let (filterExpr, filterExprErr) := getFilter query in
    if filterExprErr then Err errors.ScimErrorInvalidFilter
    else Ok {| Count := count; Filter := filterExpr; StartIndex := startIndex |}.

End Constructors.

Section ServerSchemas.

Context `{Externals}.
Context {F : strings.Folding}.

(** [ResourceType.validate], on the outcome of decoding the body ([None]
    when [unmarshal] fails). *)
Fixpoint extensionsLoop (r : Request) (m : gomap) (exts : list SchemaExtension)
    (attributes : gomap) : outcome gomap :=
  match exts with
  | [] => Ok attributes
  | extension :: exts' =>
      let id := ID (Extension_Schema extension) in
      let extensionField := mget id m in
      if isNil extensionField then
        if Extension_Required extension
        then Err (invalidValue (" Missing extension name: " ++
                                derefOr (Name (Extension_Schema extension)) ++
                                ", Extension ID: " ++ id))
        else extensionsLoop r m exts' attributes
      else
        match (if LoadDynamically extension
               then Schema_Validate (LoadSchema extension r) extensionField
               else Schema_Validate (Extension_Schema extension) extensionField) with
        | Ok extensionAttributes =>
            extensionsLoop r m exts' (mset id (VMap extensionAttributes) attributes)
        | Err scimErr => Err scimErr
        | Panic msg => Panic msg
        end
  end.

Definition ResourceType_validate (t : ResourceType) (decoded : option gomap) (r : Request)
    : outcome gomap :=
  match decoded with
  | None => Err errors.ScimErrorInvalidSyntax
  | Some m =>
      match Schema_Validate (schemaWithCommon t) (VMap m) with
      | Ok attributes => extensionsLoop r m (SchemaExtensions t) attributes
      | Err scimErr => Err scimErr
      | Panic msg => Panic msg
      end
  end.

(** The field of [Server] that the schema look-ups read. *)
Record Server := mkServer {
  ResourceTypes : list ResourceType
}.

(** The zero value [schema.Schema{}]. *)
Definition emptySchema : Schema :=
  {| Attributes_ := []; Description := None; ID := ""; Name := None |}.

Definition loaded (r : Request) (extension : SchemaExtension) : Schema :=
  if LoadDynamically extension then LoadSchema extension r else Extension_Schema extension.

(** [Server.getSchema] *)
Fixpoint getSchemaInExtensions (id : string) (r : Request) (exts : list SchemaExtension)
    : option Schema :=
  match exts with
  | [] => None
  | extension :: exts' =>
      if String.eqb (ID (Extension_Schema extension)) id then Some (loaded r extension)
      else getSchemaInExtensions id r exts'
  end.

Fixpoint getSchemaLoop (id : string) (r : Request) (rts : list ResourceType) : Schema :=
  match rts with
  | [] => emptySchema
  | resourceType :: rts' =>
      if String.eqb (ID (ResourceType_Schema resourceType)) id
      then ResourceType_Schema resourceType
      else
        match getSchemaInExtensions id r (SchemaExtensions resourceType) with
        | Some s => s
        | None => getSchemaLoop id r rts'
        end
  end.

Definition getSchema (s : Server) (id : string) (r : Request) : Schema :=
  getSchemaLoop id r (ResourceTypes s).

(** The helper [contains] is not among the sources; by its use ("Duplicate
    IDs will be ignored") it tells whether a string is in a slice. *)
Fixpoint contains (arr : list string) (el : string) : bool :=
  match arr with
  | [] => false
  | item :: arr' => String.eqb item el || contains arr' el
  end.

(** [Server.getSchemas]: the loops thread the slices [ids] and [schemas]. *)
Fixpoint getSchemasOfExtensions (r : Request) (exts : list SchemaExtension)
    (ids : list string) (schemas : list Schema) : list string * list Schema :=
  match exts with
  | [] => (ids, schemas)
  | extension :: exts' =>
      let id := ID (Extension_Schema extension) in
      let schemas' :=
        if negb (contains ids id) then (schemas ++ [loaded r extension])%list else schemas in
      getSchemasOfExtensions r exts' (ids ++ [id])%list schemas'
  end.

Fixpoint getSchemasLoop (r : Request) (rts : list ResourceType)
    (ids : list string) (schemas : list Schema) : list string * list Schema :=
  match rts with
  | [] => (ids, schemas)
  | resourceType :: rts' =>
      let id := ID (ResourceType_Schema resourceType) in
      let schemas' :=
        if negb (contains ids id) then (schemas ++ [ResourceType_Schema resourceType])%list
        else schemas in
      let (ids'', schemas'') :=
        getSchemasOfExtensions r (SchemaExtensions resourceType) (ids ++ [id])%list schemas' in
      getSchemasLoop r rts' ids'' schemas''
  end.

Definition getSchemas (s : Server) (r : Request) : list Schema :=
  snd (getSchemasLoop r (ResourceTypes s) [] []).

(** The schemas of a server in the order the look-ups visit them, each with
    the id it is registered under. *)
Definition registered (r : Request) (rts : list ResourceType) : list (string * Schema) :=
  flat_map (fun resourceType =>
              (ID (ResourceType_Schema resourceType), ResourceType_Schema resourceType) ::
              map (fun extension => (ID (Extension_Schema extension), loaded r extension))
                  (SchemaExtensions resourceType)) rts.

End ServerSchemas.

(** The helpers of the examples: every name passes, a filter is its text. *)
#[export] Instance sampleHelpers : Helpers :=
  {| checkAttributeName := fun _ => true;
     Expression := string;
     ParseFilter := fun s => Some s;
     TrimSpace := fun s => s;
     QueryUnescape := fun s => s;
     ScimErrorBadParams := fun ps =>
       derive errors.ScimErrorInvalidValue (" Bad parameters: " ++ String.concat ", " ps) |}.

(** The number of entries of [m] whose key matches [attrName]. *)
Definition matches {F : strings.Folding} (attrName : string) (m : gomap) : nat :=
  length (filter (fun kv => strings.EqualFold attrName (fst kv)) m).

Definition duplicateError (a : CoreAttribute) : ScimError :=
  derive errors.ScimErrorDuplicateAttributeFound (" Attribute name: " ++ name a).


(** An outcome that is not a returned value. *)
Definition refused {A : Type} (o : outcome A) : Prop :=
  match o with
  | Ok _ => False
  | _ => True
  end.

Section PatchedEntries.

Context `{Externals}.
Context {F : strings.Folding}.

(** What [ValidatePatchOperation] requires of an entry [kv] of the
    operation value, and the entry [kv'] it then returns for it. *)
Definition patched (s : Schema) (operation : string) (isExtension : bool)
    (kv kv' : string * value) : Prop :=
  fst kv' = fst kv /\
  exists attr, resolveAttribute (ID s) isExtension (fst kv) (Attributes_ s) = Some attr /\
               cannotBePatched operation attr = false /\
               validate attr (snd kv) = Ok (snd kv').

(** The operations [outs] that the loop of [validatePatch] returns for the
    operations [ops], the first of which has the 0-based position [index]. *)
Definition validatedFrom (t : ResourceType) (r : Request) (index : nat)
    (ops : list rawOperation) (outs : list PatchOperation) : Prop :=
  List.length outs = List.length ops /\
  (forall i v, nth_error ops i = Some v ->
     exists op, nth_error outs i = Some op /\
                validateOperation t r (index + i)%nat v = Ok op).

Definition invalidPathError (index : nat) (err : string) : ScimError :=
  derive errors.ScimErrorInvalidPath
    (" Operation number: " ++ fmt.Sprint (index + 1) ++ ", has failed validation. " ++ err).

End PatchedEntries.

Section ServerStatements.

Context `{Externals}.
Context {F : strings.Folding}.

Definition missingExtension (extension : SchemaExtension) : ScimError :=
  invalidValue (" Missing extension name: " ++ derefOr (Name (Extension_Schema extension)) ++
                ", Extension ID: " ++ ID (Extension_Schema extension)).

(** The schema of the first entry registered under [id]. *)
Definition findEntry (id : string) (entries : list (string * Schema)) : option Schema :=
  option_map snd (find (fun e => String.eqb (fst e) id) entries).

(** No extension of the server loads its schema dynamically. *)
Definition allStatic (s : Server) : Prop :=
  forall resourceType extension,
    In resourceType (ResourceTypes s) ->
    In extension (SchemaExtensions resourceType) ->
    LoadDynamically extension = false.

End ServerStatements.

(** A resource type with a required extension, and a server, for the
    examples. *)
Definition sampleEnterprise : Schema :=
  {| Attributes_ := [sampleManager];
     Description := None;
     ID := "urn:ietf:params:scim:schemas:extension:enterprise:2.0:User";
     Name := Some "Enterprise" |}.

Definition sampleExtension : SchemaExtension :=
  {| Extension_Schema := sampleEnterprise; Extension_Required := true;
     LoadDynamically := false; LoadSchema := fun _ => sampleEnterprise |}.

Definition sampleExtendedType : ResourceType :=
  {| ResourceType_Schema := sampleSchema; SchemaExtensions := [sampleExtension] |}.

Definition sampleServer : Server :=
  {| ResourceTypes := [sampleExtendedType; sampleResourceType] |}.

Definition sampleAddNoPath : rawOperation :=
  {| rawOp := "Add"; rawPath := ""; rawValue := VMap [("nickName", VString "b")] |}.

Definition sampleGivenName (spelling : string) : rawOperation :=
  {| rawOp := "replace"; rawPath := "name." ++ spelling; rawValue := VString "Ada" |}.

(** The state that the loops of [getSchemas] keep: [ids] are the ids of
    the entries visited so far, and [schemas] holds, for each of these ids
    once, the schema of the first entry registered under it. *)
Definition collected (visited : list (string * Schema)) (ids : list string)
    (schemas : list Schema) : Prop :=
  ids = map fst visited /\
  NoDup (map ID schemas) /\
  (forall id, In id (map ID schemas) <-> In id ids) /\
  (forall sc, In sc schemas -> findEntry (ID sc) visited = Some sc).

(** * Properties *)

(** ** Case folding *)

Section Folding.

Context {F : strings.Folding}.

Lemma ToLower_idempotent (s : string) :
  strings.ToLower (strings.ToLower s) = strings.ToLower s.
Proof.
  apply strings.lower_idempotent.
Qed.

Lemma EqualFold_ToLower_manager (s : string) :
  strings.EqualFold (strings.ToLower s) "manager" = strings.EqualFold s "manager".
Proof.
  apply strings.fold_lower_manager.
Qed.

Lemma EqualFold_refl (s : string) : strings.EqualFold s s = true.
Proof.
  apply strings.fold_refl.
Qed.

Lemma EqualFold_sym (s t : string) : strings.EqualFold s t = strings.EqualFold t s.
Proof.
  apply strings.fold_sym.
Qed.

End Folding.

Lemma invalidValue_type (suffix : string) :
  ScimType (invalidValue suffix) = ScimTypeInvalidValue.
Proof.
  reflexivity.
Qed.

(** ** Validation of one attribute *)

Section AttributeProperties.

Context `{E : Externals}.
Context {F : strings.Folding}.

(** [validate] unfolds to the body of the Go method. *)
Lemma validate_eq (a : CoreAttribute) (attribute : value) :
  validate a attribute =
  if isNil attribute then
    if negb (required a) then Ok VNil
    else Err (invalidValue (" Attribute name: " ++ name a))
  else if isReadOnlyMutability (mutability a) then Ok VNil
  else if negb (multiValued a) then validateSingular a attribute
  else
    match attribute with
    | VMap arr =>
        if required a && (length arr =? 0)%nat
        then Err (invalidValue (" Multivalued attribute was empty. Attribute name: " ++ name a))
        else
          match legacyLoop (fun k v validMap => legacyEntry validate k v (subAttributes a) validMap) arr [] with
          | Ok validMap => Ok (VMap validMap)
          | Err scimErr => Err scimErr
          | Panic msg => Panic msg
          end
    | VList arr =>
        if required a && (length arr =? 0)%nat
        then Err (invalidValue (" Multivalued attribute was empty. Attribute name: " ++ name a))
        else
          match listLoop (validateSingular a) arr with
          | Ok attributes => Ok (VList attributes)
          | Err scimErr => Err scimErr
          | Panic msg => Panic msg
          end
    | _ => Err (invalidValue (" Multivalued attribute was not an array. Attribute name: " ++ name a))
    end.
Proof.
  destruct a; reflexivity.
Qed.

Lemma validate_null (a : CoreAttribute) :
  validate a VNil =
    if required a
    then Err (derive errors.ScimErrorInvalidValue (" Attribute name: " ++ name a))
    else Ok VNil.
Proof.
  rewrite validate_eq. simpl. now destruct (required a).
Qed.

Lemma validate_readOnly (a : CoreAttribute) (v : value) :
  mutability a = attributeMutabilityReadOnly ->
  v <> VNil ->
  validate a v = Ok VNil.
Proof.
  intros Hm Hv. rewrite validate_eq, Hm.
  destruct v; simpl; try reflexivity. now elim Hv.
Qed.

(** C9.  An explicit null is the absent value: whatever the type, the
    multiplicity and the mutability of the attribute, [validate] answers a
    null with no value and no error when the attribute is not required, and
    with the InvalidValue error of a required attribute that is absent
    when it is required. *)
Theorem null_treated_as_absent (a : CoreAttribute) :
  validate a VNil =
    (if required a
     then Err (derive errors.ScimErrorInvalidValue (" Attribute name: " ++ name a))
     else Ok VNil) /\
  ScimType (derive errors.ScimErrorInvalidValue (" Attribute name: " ++ name a))
    = ScimTypeInvalidValue.
Proof.
  split; [apply validate_null | reflexivity].
Qed.

(** C7.  A complex attribute given a value that is no mapping: when its
    name equals "manager" without regard to case, a bare string is returned
    unchanged; in every other case the answer is an InvalidValue error. *)
Theorem manager_bare_string (a : CoreAttribute) (v : value) :
  typ a = attributeDataTypeComplex ->
  (forall m, v <> VMap m) ->
  validateSingular a v =
    (if strings.EqualFold (name a) "manager"
     then match v with
          | VString s => Ok (VString s)
          | _ => Err (wrongStructure a)
          end
     else Err (wrongStructure a)) /\
  ScimType (wrongStructure a) = ScimTypeInvalidValue.
Proof.
  intros Ht Hv. split; [|reflexivity].
  unfold validateSingular, validateSingular_. rewrite Ht, EqualFold_ToLower_manager.
  destruct v; try reflexivity.
  now elim (Hv m).
Qed.

(** C3, as amended.  A boolean attribute accepts a native boolean as it
    is, and exactly the four strings "True", "true", "False" and "false",
    which become the boolean they spell; every other string and every
    other value is an InvalidValue error. *)
Theorem boolean_strings (a : CoreAttribute) (v : value) :
  typ a = attributeDataTypeBoolean ->
  validateSingular a v =
    match v with
    | VBool b => Ok (VBool b)
    | VString s =>
        if String.eqb "True" s || String.eqb "true" s then Ok (VBool true)
        else if String.eqb "False" s || String.eqb "false" s then Ok (VBool false)
        else Err (notBoolean a)
    | _ => Err (notBoolean a)
    end /\
  ScimType (notBoolean a) = ScimTypeInvalidValue.
Proof.
  intros Ht. split; [|reflexivity].
  unfold validateSingular, validateSingular_. rewrite Ht.
  destruct v; try reflexivity.
  unfold validBooleanStrings, lookupBoolean.
  destruct (String.eqb "True" s) eqn:E1; [reflexivity|].
  destruct (String.eqb "False" s) eqn:E2.
  - apply String.eqb_eq in E2. now subst s.
  - destruct (String.eqb "true" s) eqn:E3; [reflexivity|].
    now destruct (String.eqb "false" s).
Qed.

End AttributeProperties.

Lemma manager_bare_string_witness :
  typ sampleManager = attributeDataTypeComplex /\
  (forall m, VString "274" <> VMap m) /\
  strings.EqualFold (name sampleManager) "manager" = true /\
  validateSingular sampleManager (VString "274") = Ok (VString "274").
Proof.
  split; [reflexivity|]. split; [discriminate|]. split; [reflexivity|].
  refine (proj1 (manager_bare_string (F:=asciiFolding) sampleManager (VString "274") eq_refl _)).
  discriminate.
Defined.

Lemma boolean_strings_witness :
  typ sampleActive = attributeDataTypeBoolean /\
  validateSingular sampleActive (VString "True") = Ok (VBool true).
Proof.
  split; [reflexivity|].
  apply (boolean_strings (F:=asciiFolding) sampleActive (VString "True")). reflexivity.
Defined.

(** C3, the claim as stated fails: "TRUE" equals "true" without regard to
    case, and a boolean attribute rejects it. *)
Lemma boolean_uppercase_rejected :
  strings.EqualFold "TRUE" "true" = true /\
  validateSingular sampleActive (VString "TRUE") = Err (notBoolean sampleActive).
Proof.
  split; reflexivity.
Qed.

(** ** Maps and the key scan *)

Lemma mlookup_mset (k k' : string) (v : value) (m : gomap) :
  mlookup k' (mset k v m) = if String.eqb k k' then Some v else mlookup k' m.
Proof.
  induction m as [|[k0 v0] m IH]; simpl.
  - reflexivity.
  - destruct (String.eqb k0 k) eqn:E0; simpl.
    + apply String.eqb_eq in E0. subst k0.
      now destruct (String.eqb k k').
    + rewrite IH. destruct (String.eqb k0 k') eqn:E1; [|reflexivity].
      apply String.eqb_eq in E1. subst k0.
      rewrite String.eqb_sym in E0. now rewrite E0.
Qed.

Lemma keys_mset (k k' : string) (v : value) (m : gomap) :
  In k' (keys (mset k v m)) <-> k' = k \/ In k' (keys m).
Proof.
  unfold keys. induction m as [|[k0 v0] m IH]; simpl.
  - intuition.
  - destruct (String.eqb k0 k) eqn:E0; simpl.
    + apply String.eqb_eq in E0. subst k0. intuition.
    + rewrite IH. intuition.
Qed.

Lemma mlookup_In_keys (k : string) (m : gomap) :
  In k (keys m) <-> exists v, mlookup k m = Some v.
Proof.
  unfold keys. induction m as [|[k0 v0] m IH]; simpl.
  - split; [intros [] | intros [v Hv]; discriminate].
  - destruct (String.eqb k0 k) eqn:E0.
    + apply String.eqb_eq in E0. split; [eauto | auto].
    + apply String.eqb_neq in E0. rewrite <- IH. intuition.
Qed.

Lemma scanKeys_found {F : strings.Folding} (n : string) (dup : ScimError) (m : gomap) :
  forall (f : bool) (h : value) (found : bool) (hit : value),
    scanKeys n dup m f h = Ok (found, hit) ->
    found = f || supplied n m.
Proof.
  induction m as [|[k v] m IH]; simpl; intros f h found hit Hs.
  - inversion Hs. now rewrite orb_false_r.
  - destruct (strings.EqualFold n k); simpl.
    + destruct f; [discriminate|]. apply IH in Hs. now rewrite Hs.
    + now apply IH in Hs.
Qed.

Lemma scanKeys_seen {F : strings.Folding} (n : string) (dup : ScimError) (m : gomap) :
  forall (h : value) (found : bool) (hit : value),
    scanKeys n dup m true h = Ok (found, hit) ->
    supplied n m = false /\ hit = h.
Proof.
  induction m as [|[k v] m IH]; simpl; intros h found hit Hs.
  - inversion Hs. auto.
  - destruct (strings.EqualFold n k); simpl; [discriminate|]. now apply IH in Hs.
Qed.

Lemma hitOf_missing {F : strings.Folding} (n : string) (m : gomap) :
  supplied n m = false -> hitOf n m = VNil.
Proof.
  induction m as [|[k v] m IH]; simpl; [reflexivity|].
  destruct (strings.EqualFold n k); simpl; [discriminate | exact IH].
Qed.

Lemma scanKeys_hit {F : strings.Folding} (n : string) (dup : ScimError) (m : gomap) (found : bool) (hit : value) :
  scanKeys n dup m false VNil = Ok (found, hit) ->
  found = supplied n m /\ hit = hitOf n m.
Proof.
  intros Hs. split; [exact (scanKeys_found _ _ _ _ _ _ _ Hs)|].
  induction m as [|[k v] m IH]; simpl in *.
  - now inversion Hs.
  - destruct (strings.EqualFold n k).
    + now apply scanKeys_seen in Hs.
    + now apply IH.
Qed.

Lemma scanKeys_filter {F : strings.Folding} (keep : string * value -> bool) (n : string) (dup : ScimError) (m : gomap) :
  (forall k v, strings.EqualFold n k = true -> keep (k, v) = true) ->
  forall (f : bool) (h : value),
    scanKeys n dup (filter keep m) f h = scanKeys n dup m f h.
Proof.
  intros Hkeep. induction m as [|[k v] m IH]; simpl; intros f h; [reflexivity|].
  destruct (strings.EqualFold n k) eqn:En.
  - rewrite (Hkeep k v En). simpl. rewrite En. destruct f; [reflexivity | apply IH].
  - destruct (keep (k, v)); simpl; [rewrite En|]; apply IH.
Qed.

(** ** Validation of a resource against a schema *)

Section SchemaProperties.

Context `{E : Externals}.
Context {F : strings.Folding}.

Lemma validate_no_value (a : CoreAttribute) (hit v : value) :
  mutability a = attributeMutabilityReadOnly \/ hit = VNil ->
  validate a hit = Ok v ->
  v = VNil.
Proof.
  intros Hno Hv. destruct hit;
    try (destruct Hno as [Hm | Hh]; [|discriminate];
         rewrite (validate_readOnly a _ Hm) in Hv; [now inversion Hv | discriminate]).
  rewrite validate_null in Hv.
  destruct (required a); [discriminate | now inversion Hv].
Qed.

Lemma validateLoop_output (checkMutability : bool) (core : gomap) (attrs : Attributes) :
  forall (acc m : gomap),
    validateLoop checkMutability core attrs acc = Ok m ->
    (forall k, In k (keys m) <-> In k (keys acc) \/ In k (map name attrs)) /\
    (forall k v, mlookup k m = Some v ->
       mlookup k acc = Some v \/
       exists a, In a attrs /\ name a = k /\ validate a (hitOf k core) = Ok v).
Proof.
  induction attrs as [|a attrs IH]; simpl; intros acc m Hm.
  - inversion Hm; subst. split; [intuition | auto].
  - destruct (scanKeys (name a) _ core false VNil) as [[found hit]| |] eqn:Hs;
      try discriminate.
    apply scanKeys_hit in Hs. destruct Hs as [_ Hhit].
    destruct (found && checkMutability && isImmutableMutability (mutability a));
      [discriminate|].
    destruct (validate a hit) as [attr| |] eqn:Hv; try discriminate.
    apply IH in Hm. destruct Hm as [Hkeys Hlook]. split.
    + intros k. rewrite Hkeys, keys_mset. intuition.
    + intros k v Hk. apply Hlook in Hk. rewrite mlookup_mset in Hk.
      destruct Hk as [Hk | (b & Hb & Hn & Hvb)].
      * destruct (String.eqb (name a) k) eqn:Ek; [|auto].
        apply String.eqb_eq in Ek. inversion Hk; subst.
        right. exists a. auto.
      * right. exists b. auto.
Qed.

Lemma validateLoop_filter (checkMutability : bool) (core : gomap) (all attrs : Attributes) :
  incl attrs all ->
  forall acc : gomap,
    validateLoop checkMutability (filter (covered all) core) attrs acc =
    validateLoop checkMutability core attrs acc.
Proof.
  induction attrs as [|a attrs IH]; simpl; intros Hincl acc; [reflexivity|].
  rewrite scanKeys_filter.
  - destruct (scanKeys (name a) _ core false VNil) as [[found hit]| |]; try reflexivity.
    destruct (found && checkMutability && isImmutableMutability (mutability a));
      [reflexivity|].
    destruct (validate a hit); try reflexivity.
    apply IH. intros b Hb. apply Hincl. now right.
  - intros k v Hk. unfold covered. apply existsb_exists. exists a.
    split; [apply Hincl; now left | exact Hk].
Qed.

(** C2, as amended.  When [Schema.validate] accepts a resource, the keys
    of the returned map are exactly the names of the attributes of the
    schema; each entry holds what the validation of an attribute of that
    name returned for the input entry it matches; an attribute that
    produced no value, being readOnly or not supplied, is present under
    its name and holds null; and the input entries that no attribute
    covers change nothing. *)
Theorem validate_output_keys (s : Schema) (core : gomap) (checkMutability : bool)
    (m : gomap) :
  Schema_validate s (VMap core) checkMutability = Ok m ->
  (forall k, In k (keys m) <-> In k (map name (Attributes_ s))) /\
  (forall k v, mlookup k m = Some v ->
     exists a, In a (Attributes_ s) /\ name a = k /\ validate a (hitOf k core) = Ok v) /\
  (forall a, In a (Attributes_ s) ->
     (forall b, In b (Attributes_ s) -> name b = name a ->
        mutability b = attributeMutabilityReadOnly \/ supplied (name b) core = false) ->
     mlookup (name a) m = Some VNil) /\
  Schema_validate s (VMap (filter (covered (Attributes_ s)) core)) checkMutability = Ok m.
Proof.
  unfold Schema_validate. intros Hm.
  destruct (validateLoop_output _ _ _ _ _ Hm) as [Hkeys Hlook].
  assert (Hlook' : forall k v, mlookup k m = Some v ->
            exists a, In a (Attributes_ s) /\ name a = k /\
                      validate a (hitOf k core) = Ok v).
  { intros k v Hk. destruct (Hlook k v Hk) as [Hacc | Hex]; [discriminate | exact Hex]. }
  split; [|split; [exact Hlook'|split]].
  - intros k. rewrite Hkeys. simpl. intuition.
  - intros a Ha Hno.
    assert (Hin : In (name a) (keys m)).
    { apply Hkeys. right. now apply in_map. }
    apply mlookup_In_keys in Hin. destruct Hin as [v Hv]. rewrite Hv. f_equal.
    destruct (Hlook' _ _ Hv) as (b & Hb & Hn & Hvb).
    apply (validate_no_value b (hitOf (name a) core)); [|exact Hvb].
    destruct (Hno b Hb Hn) as [Hro | Hsup]; [now left|].
    right. rewrite <- Hn. now apply hitOf_missing.
  - rewrite validateLoop_filter; [exact Hm | apply incl_refl].
Qed.

(** C5, as amended.  A readOnly attribute given any value other than the
    absent one yields no value and no error: the value is neither validated
    nor returned.  In the output of the validation of a resource the
    attribute is not dropped: when the attributes of its name are all
    readOnly, its name is a key of the output and holds null. *)
Theorem readOnly_value_dropped (a : CoreAttribute) (v : value) :
  mutability a = attributeMutabilityReadOnly ->
  v <> VNil ->
  validate a v = Ok VNil /\
  (forall (s : Schema) (core : gomap) (checkMutability : bool) (m : gomap),
     In a (Attributes_ s) ->
     (forall b, In b (Attributes_ s) -> name b = name a ->
                mutability b = attributeMutabilityReadOnly) ->
     Schema_validate s (VMap core) checkMutability = Ok m ->
     mlookup (name a) m = Some VNil).
Proof.
  intros Hm Hv. split; [exact (validate_readOnly a v Hm Hv)|].
  unfold Schema_validate. intros s core checkMutability m Ha Hall Hok.
  destruct (validateLoop_output _ _ _ _ _ Hok) as [Hkeys Hlook].
  assert (Hin : In (name a) (keys m)).
  { apply Hkeys. right. now apply in_map. }
  apply mlookup_In_keys in Hin. destruct Hin as [x Hx]. rewrite Hx. f_equal.
  destruct (Hlook _ _ Hx) as [Hacc | (b & Hb & Hn & Hvb)]; [discriminate|].
  apply (validate_no_value b (hitOf (name a) core)); [|exact Hvb].
  left. now apply Hall.
Qed.

Lemma validateLoop_immutable (core : gomap) (a : CoreAttribute) (post : Attributes) :
  mutability a = attributeMutabilityImmutable ->
  supplied (name a) core = true ->
  forall (pre : Attributes) (acc m : gomap),
    (forall b, In b pre -> mutability b = attributeMutabilityImmutable ->
               supplied (name b) core = false) ->
    validateLoop false core (pre ++ a :: post)%list acc = Ok m ->
    validateLoop true core (pre ++ a :: post)%list acc = Err (mutabilityError a).
Proof.
  intros Hm Hsup. induction pre as [|b pre IH]; simpl; intros acc m Hpre Hok.
  - destruct (scanKeys (name a) _ core false VNil) as [[found hit]| |] eqn:Hs;
      try discriminate.
    apply scanKeys_hit in Hs. destruct Hs as [Hf _].
    rewrite Hf, Hsup, Hm. reflexivity.
  - destruct (scanKeys (name b) _ core false VNil) as [[found hit]| |] eqn:Hs;
      try discriminate.
    apply scanKeys_hit in Hs. destruct Hs as [Hf _].
    rewrite andb_false_r in Hok. simpl in Hok.
    assert (Hgate : found && true && isImmutableMutability (mutability b) = false).
    { destruct (mutability b) eqn:Hb; simpl; try apply andb_false_r.
      rewrite Hf, (Hpre b); auto. }
    rewrite Hgate.
    destruct (validate b hit); try discriminate.
    apply (IH _ m); [|exact Hok]. intros c Hc. apply Hpre. now right.
Qed.

(** C6, as amended.  When [Validate] accepts a document and the document
    supplies a key for an immutable attribute, [ValidateMutability] fails
    on the same document with the Mutability error that names the first
    immutable attribute, in the order of the schema, that the document
    supplies. *)
Theorem immutable_supplied_rejected (s : Schema) (core : gomap)
    (pre post : Attributes) (a : CoreAttribute) (m : gomap) :
  Attributes_ s = (pre ++ a :: post)%list ->
  mutability a = attributeMutabilityImmutable ->
  supplied (name a) core = true ->
  (forall b, In b pre -> mutability b = attributeMutabilityImmutable ->
             supplied (name b) core = false) ->
  Schema_Validate s (VMap core) = Ok m ->
  Schema_ValidateMutability s (VMap core) = Err (mutabilityError a) /\
  ScimType (mutabilityError a) = ScimTypeMutability.
Proof.
  unfold Schema_Validate, Schema_ValidateMutability, Schema_validate.
  intros Hs Hm Hsup Hpre Hok. split; [|reflexivity].
  rewrite Hs in *. now apply (validateLoop_immutable core a post Hm Hsup pre [] m).
Qed.

End SchemaProperties.

(** ** Structural induction on attributes and their sub-attributes *)

Lemma CoreAttribute_nested_ind (P : CoreAttribute -> Prop) :
  (forall a, Forall P (subAttributes a) -> P a) ->
  forall a, P a.
Proof.
  intros step. fix IH 1. intros a. apply step.
  destruct a as [cv ce d mv mu n rt rq rt' subs ty un]. simpl.
  induction subs as [|sub subs IHsubs]; constructor.
  - apply IH.
  - exact IHsubs.
Qed.

Section Soundness.

Context `{E : Externals}.
Context {F : strings.Folding}.

Lemma complexLoop_sound (a : CoreAttribute) (complex : gomap) (subs : list CoreAttribute) :
  Forall (fun sub => forall v, sound (validate sub v)) subs ->
  forall attributes,
    match complexLoop validate a complex subs attributes with
    | Ok r => exists m, r = VMap m
    | Err e => ScimType e = ScimTypeInvalidValue
    | Panic _ => False
    end.
Proof.
  induction 1 as [|sub subs Hsub _ IH]; simpl; intros attributes; [eauto|].
  assert (Hscan : forall m f h,
            match scanKeys (name sub)
                    (invalidValue (" Duplicate attribute found inside of the complex attribute: " ++
                        name a ++ ". Duplicate attribute name: " ++ name sub)) m f h with
            | Ok _ => True
            | Err e => ScimType e = ScimTypeInvalidValue
            | Panic _ => False
            end).
  { induction m as [|[k v] m IHm]; simpl; intros f h; [exact I|].
    destruct (strings.EqualFold (name sub) k); [destruct f; [reflexivity|]|]; apply IHm. }
  specialize (Hscan complex false VNil).
  destruct (scanKeys (name sub) _ complex false VNil) as [[found hit]| |];
    [|exact Hscan|exact Hscan].
  specialize (Hsub hit). destruct (validate sub hit); simpl in Hsub; [apply IH| |]; exact Hsub.
Qed.

Lemma validateSingular_sound (a : CoreAttribute) :
  Forall (fun sub => forall v, sound (validate sub v)) (subAttributes a) ->
  forall v, sound (validateSingular a v).
Proof.
  intros Hsubs v. unfold validateSingular, validateSingular_.
  destruct (typ a); destruct v; simpl; try reflexivity; try exact I;
    try (match goal with |- context [if ?c then _ else _] => destruct c end;
         simpl; try reflexivity; exact I);
    try (match goal with |- context [match ?c with Some _ => _ | None => _ end] =>
           destruct c end; simpl; try reflexivity; exact I).
  pose proof (complexLoop_sound a m (subAttributes a) Hsubs []) as Hc.
  destruct (complexLoop validate a m (subAttributes a) []); simpl; auto.
Qed.

Lemma legacyEntry_sound (k : string) (v : value) (subs : list CoreAttribute) :
  Forall (fun sub => forall v, sound (validate sub v)) subs ->
  forall validMap,
    match legacyEntry validate k v subs validMap with
    | Ok _ => True
    | Err e => ScimType e = ScimTypeInvalidValue
    | Panic _ => False
    end.
Proof.
  induction 1 as [|sub subs Hsub _ IH]; simpl; intros validMap; [exact I|].
  destruct (strings.EqualFold (name sub) k); simpl; [|apply IH].
  specialize (Hsub v). destruct (validate sub v); simpl in Hsub; [apply IH| |]; exact Hsub.
Qed.

Lemma legacyLoop_sound (subs : list CoreAttribute) (arr : gomap) :
  Forall (fun sub => forall v, sound (validate sub v)) subs ->
  forall validMap,
    match legacyLoop (fun k v vm => legacyEntry validate k v subs vm) arr validMap with
    | Ok _ => True
    | Err e => ScimType e = ScimTypeInvalidValue
    | Panic _ => False
    end.
Proof.
  intros Hsubs. induction arr as [|[k v] arr IH]; simpl; intros validMap; [exact I|].
  pose proof (legacyEntry_sound k v subs Hsubs validMap) as He.
  destruct (legacyEntry validate k v subs validMap); [apply IH| |]; exact He.
Qed.

Lemma listLoop_sound (a : CoreAttribute) (arr : list value) :
  (forall v, sound (validateSingular a v)) ->
  match listLoop (validateSingular a) arr with
  | Ok _ => True
  | Err e => ScimType e = ScimTypeInvalidValue
  | Panic _ => False
  end.
Proof.
  intros Hs. induction arr as [|ele arr IH]; simpl; [exact I|].
  specialize (Hs ele). destruct (validateSingular a ele); simpl in Hs; try exact Hs.
  destruct (listLoop (validateSingular a) arr); auto.
Qed.

Lemma validate_sound (a : CoreAttribute) (v : value) : sound (validate a v).
Proof.
  revert v. induction a as [a IH] using CoreAttribute_nested_ind. intros v.
  rewrite validate_eq.
  destruct (isNil v).
  { destruct (negb (required a)); simpl; [exact I | reflexivity]. }
  destruct (isReadOnlyMutability (mutability a)); [exact I|].
  destruct (negb (multiValued a)); [now apply validateSingular_sound|].
  destruct v; try reflexivity.
  - destruct (required a && (length arr =? 0)%nat); [reflexivity|].
    pose proof (listLoop_sound a arr (validateSingular_sound a IH)) as Hl.
    destruct (listLoop (validateSingular a) arr); simpl; auto.
  - destruct (required a && (length m =? 0)%nat); [reflexivity|].
    pose proof (legacyLoop_sound (subAttributes a) m IH []) as Hl.
    destruct (legacyLoop _ m []); simpl; auto.
Qed.

Lemma validate_no_panic (a : CoreAttribute) (v : value) (msg : string) :
  validate a v <> Panic msg.
Proof.
  intros Hp. pose proof (validate_sound a v) as Hs. now rewrite Hp in Hs.
Qed.

Lemma validate_error_type (a : CoreAttribute) (v : value) (e : ScimError) :
  validate a v = Err e -> ScimType e = ScimTypeInvalidValue.
Proof.
  intros He. pose proof (validate_sound a v) as Hs. now rewrite He in Hs.
Qed.

(** A mapping given to an attribute that is not readOnly comes back, when
    it is accepted, as a mapping. *)
Lemma validate_mapping_shape (a : CoreAttribute) (m : gomap) (r : value) :
  isReadOnly a = false ->
  validate a (VMap m) = Ok r ->
  exists m', r = VMap m'.
Proof.
  unfold isReadOnly. intros Hro Hv. rewrite validate_eq, Hro in Hv. simpl in Hv.
  destruct (negb (multiValued a)).
  - unfold validateSingular, validateSingular_ in Hv.
    destruct (typ a); try discriminate.
    assert (Hsubs : Forall (fun sub => forall v, sound (validate sub v)) (subAttributes a)).
    { apply Forall_forall. intros sub _. apply validate_sound. }
    pose proof (complexLoop_sound a m (subAttributes a) Hsubs []) as Hc.
    rewrite Hv in Hc. exact Hc.
  - destruct (required a && (length m =? 0)%nat); [discriminate|].
    destruct (legacyLoop _ m []); inversion Hv. eauto.
Qed.

End Soundness.

(** ** The legacy mapping of a multi-valued attribute *)

Section LegacyMapping.

Context `{E : Externals}.
Context {F : strings.Folding}.

Lemma legacyEntry_result (k : string) (v : value) (subs : list CoreAttribute) :
  forall validMap r,
    legacyEntry validate k v subs validMap = Ok r ->
    r = legacyEntryMapping k v subs validMap.
Proof.
  induction subs as [|sub subs IH]; simpl; intros validMap r Hr.
  - now inversion Hr.
  - destruct (strings.EqualFold (name sub) k); simpl in Hr; [|now apply IH].
    destruct (validate sub v); try discriminate. now apply IH.
Qed.

Lemma legacyEntry_accepts (k : string) (v : value) (subs : list CoreAttribute) :
  (forall sub, In sub subs -> strings.EqualFold (name sub) k = true ->
               exists x, validate sub v = Ok x) ->
  forall validMap,
    legacyEntry validate k v subs validMap = Ok (legacyEntryMapping k v subs validMap).
Proof.
  induction subs as [|sub subs IH]; simpl; intros Hok validMap; [reflexivity|].
  destruct (strings.EqualFold (name sub) k) eqn:Ek; simpl.
  - destruct (Hok sub (or_introl eq_refl) Ek) as [x Hx]. rewrite Hx.
    apply IH. intros s Hs. apply Hok. now right.
  - apply IH. intros s Hs. apply Hok. now right.
Qed.

Lemma legacyEntry_rejects (k : string) (v : value) (subs : list CoreAttribute)
    (sub : CoreAttribute) (e : ScimError) :
  In sub subs ->
  strings.EqualFold (name sub) k = true ->
  validate sub v = Err e ->
  forall validMap, exists e', legacyEntry validate k v subs validMap = Err e'.
Proof.
  intros Hin Ek He. induction subs as [|s subs IH]; simpl; intros validMap; [destruct Hin|].
  destruct Hin as [-> | Hin].
  - rewrite Ek, He. simpl. eauto.
  - destruct (strings.EqualFold (name s) k); simpl; [|now apply IH].
    destruct (validate s v) eqn:Hs; [now apply IH | eauto |].
    now apply validate_no_panic in Hs.
Qed.

Lemma legacyLoop_result (subs : list CoreAttribute) (arr : gomap) :
  forall validMap r,
    legacyLoop (fun k v vm => legacyEntry validate k v subs vm) arr validMap = Ok r ->
    r = legacyMapping subs arr validMap.
Proof.
  induction arr as [|[k v] arr IH]; simpl; intros validMap r Hr.
  - now inversion Hr.
  - destruct (legacyEntry validate k v subs validMap) eqn:He; try discriminate.
    apply legacyEntry_result in He. subst. now apply IH.
Qed.

Lemma legacyLoop_accepts (subs : list CoreAttribute) (arr : gomap) :
  (forall k v sub, In (k, v) arr -> In sub subs -> strings.EqualFold (name sub) k = true ->
                   exists x, validate sub v = Ok x) ->
  forall validMap,
    legacyLoop (fun k v vm => legacyEntry validate k v subs vm) arr validMap =
    Ok (legacyMapping subs arr validMap).
Proof.
  induction arr as [|[k v] arr IH]; simpl; intros Hok validMap; [reflexivity|].
  rewrite legacyEntry_accepts.
  - apply IH. intros k' v' sub Hin. apply Hok. now right.
  - intros sub. apply Hok. now left.
Qed.

Lemma legacyLoop_rejects (subs : list CoreAttribute) (arr : gomap)
    (k : string) (v : value) (sub : CoreAttribute) (e : ScimError) :
  In (k, v) arr ->
  In sub subs ->
  strings.EqualFold (name sub) k = true ->
  validate sub v = Err e ->
  forall validMap,
    exists e', legacyLoop (fun k v vm => legacyEntry validate k v subs vm) arr validMap = Err e'.
Proof.
  intros Hin Hsub Ek He. induction arr as [|[k0 v0] arr IH]; simpl; intros validMap;
    [destruct Hin|].
  destruct Hin as [Heq | Hin].
  - inversion Heq; subst.
    destruct (legacyEntry_rejects k v subs sub e Hsub Ek He validMap) as [e' He'].
    rewrite He'. eauto.
  - pose proof (legacyEntry_sound k0 v0 subs) as Hs.
    destruct (legacyEntry validate k0 v0 subs validMap) eqn:H0; [now apply IH | eauto |].
    exfalso. assert (HF : Forall (fun s => forall x, sound (validate s x)) subs).
    { apply Forall_forall. intros s _. apply validate_sound. }
    specialize (Hs HF validMap). now rewrite H0 in Hs.
Qed.

Lemma legacyEntryMapping_lookup (k : string) (v : value) (subs : list CoreAttribute) :
  forall validMap n x,
    mlookup n (legacyEntryMapping k v subs validMap) = Some x ->
    mlookup n validMap = Some x \/
    (x = v /\ exists sub, In sub subs /\ name sub = n /\ strings.EqualFold (name sub) k = true).
Proof.
  induction subs as [|sub subs IH]; simpl; intros validMap n x Hx; [now left|].
  destruct (strings.EqualFold (name sub) k) eqn:Ek.
  - apply IH in Hx. destruct Hx as [Hx | (-> & s & Hs & Hn & Hk)].
    + rewrite mlookup_mset in Hx. destruct (String.eqb (name sub) n) eqn:En; [|now left].
      apply String.eqb_eq in En. inversion Hx; subst. right. split; [reflexivity|].
      exists sub. auto.
    + right. split; [reflexivity|]. exists s. auto.
  - apply IH in Hx. destruct Hx as [Hx | (-> & s & Hs & Hn & Hk)]; [now left|].
    right. split; [reflexivity|]. exists s. auto.
Qed.

Lemma legacyMapping_lookup (subs : list CoreAttribute) (arr : gomap) :
  forall validMap n x,
    mlookup n (legacyMapping subs arr validMap) = Some x ->
    mlookup n validMap = Some x \/
    exists k sub, In (k, x) arr /\ In sub subs /\ name sub = n /\
                  strings.EqualFold (name sub) k = true.
Proof.
  induction arr as [|[k v] arr IH]; simpl; intros validMap n x Hx; [now left|].
  apply IH in Hx. destruct Hx as [Hx | (k' & sub & Hin & Hs & Hn & Hk)].
  - apply legacyEntryMapping_lookup in Hx.
    destruct Hx as [Hx | (-> & sub & Hs & Hn & Hk)]; [now left|].
    right. exists k, sub. auto.
  - right. exists k', sub. auto.
Qed.

Lemma legacyEntryMapping_keys (k : string) (v : value) (subs : list CoreAttribute) :
  forall validMap n,
    In n (keys validMap) \/
    (exists sub, In sub subs /\ name sub = n /\ strings.EqualFold (name sub) k = true) ->
    In n (keys (legacyEntryMapping k v subs validMap)).
Proof.
  induction subs as [|sub subs IH]; simpl; intros validMap n Hn.
  - destruct Hn as [Hn | [sub [[] _]]]. exact Hn.
  - destruct (strings.EqualFold (name sub) k) eqn:Ek; apply IH.
    + destruct Hn as [Hn | [s [[<- | Hs] [Hname Hk]]]].
      * left. apply keys_mset. now right.
      * left. apply keys_mset. now left.
      * right. exists s. auto.
    + destruct Hn as [Hn | [s [[<- | Hs] [Hname Hk]]]]; [now left | congruence |].
      right. exists s. auto.
Qed.

Lemma legacyMapping_keys (subs : list CoreAttribute) (arr : gomap) :
  forall validMap n,
    In n (keys validMap) \/
    (exists k v sub, In (k, v) arr /\ In sub subs /\ name sub = n /\
                     strings.EqualFold (name sub) k = true) ->
    In n (keys (legacyMapping subs arr validMap)).
Proof.
  induction arr as [|[k v] arr IH]; simpl; intros validMap n Hn.
  - destruct Hn as [Hn | [k [v [sub [[] _]]]]]. exact Hn.
  - apply IH. destruct Hn as [Hn | [k' [v' [sub [[Heq | Hin] [Hs [Hname Hk]]]]]]].
    + left. apply legacyEntryMapping_keys. now left.
    + inversion Heq; subst k' v'. left. apply legacyEntryMapping_keys.
      right. exists sub. auto.
    + right. exists k', v', sub. auto.
Qed.

(** C10, as amended.  A multi-valued attribute that is not readOnly, given
    a mapping that is not rejected as empty: when every input value whose
    key matches a sub-attribute validates, the call returns the legacy
    mapping; when one of them fails to validate, the call fails with an
    InvalidValue error; whatever the call returns is that mapping; every
    entry of the returned mapping is an input value as it was given, under
    the name of a sub-attribute that its key matches; and every
    sub-attribute that an input key matches has an entry under its name.
    Input keys that match no sub-attribute leave no entry. *)
Theorem legacy_mapping_keeps_input (a : CoreAttribute) (arr : gomap) :
  multiValued a = true ->
  isReadOnly a = false ->
  required a && (length arr =? 0)%nat = false ->
  ((forall k v sub, In (k, v) arr -> In sub (subAttributes a) ->
                    strings.EqualFold (name sub) k = true ->
                    exists x, validate sub v = Ok x) ->
   validate a (VMap arr) = Ok (VMap (legacyMapping (subAttributes a) arr []))) /\
  (forall k v sub e, In (k, v) arr -> In sub (subAttributes a) ->
                     strings.EqualFold (name sub) k = true ->
                     validate sub v = Err e ->
                     exists e', validate a (VMap arr) = Err e' /\
                                ScimType e' = ScimTypeInvalidValue) /\
  (forall r, validate a (VMap arr) = Ok r ->
             r = VMap (legacyMapping (subAttributes a) arr [])) /\
  (forall n x, mlookup n (legacyMapping (subAttributes a) arr []) = Some x ->
               exists k sub, In (k, x) arr /\ In sub (subAttributes a) /\ name sub = n /\
                             strings.EqualFold (name sub) k = true) /\
  (forall m, validate a (VMap arr) = Ok (VMap m) ->
     (forall n x, mlookup n m = Some x ->
        exists k sub, In (k, x) arr /\ In sub (subAttributes a) /\ name sub = n /\
                      strings.EqualFold (name sub) k = true) /\
     (forall k v sub, In (k, v) arr -> In sub (subAttributes a) ->
        strings.EqualFold (name sub) k = true ->
        exists x, mlookup (name sub) m = Some x)).
Proof.
  unfold isReadOnly. intros Hmv Hro Hne.
  assert (Heq : validate a (VMap arr) =
                match legacyLoop (fun k v vm => legacyEntry validate k v (subAttributes a) vm) arr [] with
                | Ok validMap => Ok (VMap validMap)
                | Err scimErr => Err scimErr
                | Panic msg => Panic msg
                end).
  { rewrite validate_eq, Hro, Hmv, Hne. reflexivity. }
  assert (Hres : forall r, validate a (VMap arr) = Ok r ->
                           r = VMap (legacyMapping (subAttributes a) arr [])).
  { intros r Hr. rewrite Heq in Hr.
    destruct (legacyLoop _ arr []) eqn:Hl; inversion Hr.
    apply legacyLoop_result in Hl. now subst. }
  assert (Hlook : forall n x, mlookup n (legacyMapping (subAttributes a) arr []) = Some x ->
                    exists k sub, In (k, x) arr /\ In sub (subAttributes a) /\ name sub = n /\
                                  strings.EqualFold (name sub) k = true).
  { intros n x Hx. apply legacyMapping_lookup in Hx.
    destruct Hx as [Hx | Hx]; [discriminate | exact Hx]. }
  split; [|split; [|split; [exact Hres|split; [exact Hlook|]]]].
  - intros Hok. rewrite Heq, legacyLoop_accepts; [reflexivity | exact Hok].
  - intros k v sub e Hin Hsub Ek He.
    destruct (legacyLoop_rejects _ _ _ _ _ _ Hin Hsub Ek He []) as [e' He'].
    exists e'. assert (Hv : validate a (VMap arr) = Err e') by now rewrite Heq, He'.
    split; [exact Hv | exact (validate_error_type _ _ _ Hv)].
  - intros m Hm. apply Hres in Hm. inversion Hm; subst m; clear Hm. split; [exact Hlook|].
    intros k v sub Hin Hsub Ek. apply mlookup_In_keys. apply legacyMapping_keys.
    right. exists k, v, sub. auto.
Qed.

End LegacyMapping.

(** C10, the claim as stated fails: a multi-valued attribute that is
    readOnly returns no mapping for a mapping, and the value under the key
    "value", which its sub-attribute rejects, does not abort the call. *)
Lemma readOnly_legacy_mapping_ignored :
  multiValued sampleGroups = true /\
  (exists e, validate (simpleAttribute "value" attributeDataTypeString
                         attributeMutabilityReadWrite false false) (VBool true) = Err e) /\
  validate sampleGroups (VMap [("value", VBool true)]) = Ok VNil.
Proof.
  split; [reflexivity|]. split; [eexists; reflexivity | reflexivity].
Qed.

Lemma legacy_mapping_keeps_input_witness :
  multiValued sampleEmails = true /\
  isReadOnly sampleEmails = false /\
  required sampleEmails && (length [("VALUE", VString "a"); ("x", VNil); ("Primary", VString "true")] =? 0)%nat = false /\
  validate sampleEmails (VMap [("VALUE", VString "a"); ("x", VNil); ("Primary", VString "true")])
    = Ok (VMap [("value", VString "a"); ("primary", VString "true")]).
Proof.
  split; [reflexivity|]. split; [reflexivity|]. split; [reflexivity|].
  assert (Hall : forall k v sub,
            In (k, v) [("VALUE", VString "a"); ("x", VNil); ("Primary", VString "true")] ->
            In sub (subAttributes sampleEmails) ->
            strings.EqualFold (name sub) k = true ->
            exists x, validate sub v = Ok x).
  { intros k v sub Hin Hsub Ek. simpl in Hin, Hsub.
    destruct Hsub as [<- | [<- | []]];
      destruct Hin as [Hin | [Hin | [Hin | []]]]; inversion Hin; subst;
      try (vm_compute in Ek; discriminate Ek); eexists; reflexivity. }
  exact (proj1 (legacy_mapping_keeps_input (F:=asciiFolding) sampleEmails
                  [("VALUE", VString "a"); ("x", VNil); ("Primary", VString "true")]
                  eq_refl eq_refl eq_refl) Hall).
Defined.


(** ** PATCH: validation of one operation value against a schema *)

Section PatchProperties.

Context `{E : Externals}.
Context {F : strings.Folding}.

(** A key that resolves to no attribute: the call does not return. *)
Lemma patch_unresolved_key_panics (s : Schema) (operation : string) (isExtension : bool)
    (k : string) (v : value) (rest : gomap) :
  resolveAttribute (ID s) isExtension k (Attributes_ s) = None ->
  Schema_ValidatePatchOperation s operation ((k, v) :: rest) isExtension = Panic nilDereference.
Proof.
  unfold Schema_ValidatePatchOperation. simpl. now intros ->.
Qed.

(** A key that resolves to an attribute the operation may not touch. *)
Lemma patch_forbidden_rejected (s : Schema) (operation : string) (isExtension : bool)
    (k : string) (v : value) (rest : gomap) (attr : CoreAttribute) :
  resolveAttribute (ID s) isExtension k (Attributes_ s) = Some attr ->
  cannotBePatched operation attr = true ->
  Schema_ValidatePatchOperation s operation ((k, v) :: rest) isExtension
    = Err (cannotPatchError attr).
Proof.
  unfold Schema_ValidatePatchOperation. simpl. now intros -> ->.
Qed.

Lemma cannotBePatched_spec (operation : string) (attr : CoreAttribute) :
  cannotBePatched operation attr = true <->
  mutability attr = attributeMutabilityReadOnly \/
  (mutability attr = attributeMutabilityImmutable /\
   (operation = "replace" \/ operation = "remove")).
Proof.
  unfold cannotBePatched, isImmutable, isReadOnly.
  rewrite orb_true_iff, andb_true_iff, orb_true_iff, !String.eqb_eq.
  destruct (mutability attr); simpl; intuition congruence.
Qed.

Lemma patchLoop_single_mapping (s : Schema) (operation : string) (isExtension : bool)
    (k : string) (m val : gomap) :
  patchLoop s operation isExtension [(k, VMap m)] [] = Ok val ->
  exists m', val = [(k, VMap m')].
Proof.
  simpl. destruct (resolveAttribute _ _ _ _) as [attr|]; [|discriminate].
  destruct (cannotBePatched operation attr) eqn:Hc; [discriminate|].
  destruct (validate attr (VMap m)) as [newValue| |] eqn:Hv; try discriminate.
  intros Hval. inversion Hval; subst.
  apply validate_mapping_shape in Hv.
  - destruct Hv as [m' ->]. eauto.
  - unfold cannotBePatched in Hc. now apply orb_false_iff in Hc.
Qed.

End PatchProperties.

(** C1, at an input where the code departs from it.  The key "title" names
    no attribute of the schema; [ValidatePatchOperation] does not return an
    InvalidValue error, it panics while building one. *)
Theorem patch_unknown_attribute_panics :
  resolveAttribute (ID sampleSchema) false "title" (Attributes_ sampleSchema) = None /\
  Schema_ValidatePatchOperation sampleSchema "add" [("title", VString "x")] false
    = Panic nilDereference.
Proof.
  split; reflexivity.
Qed.

(** ** PATCH: the loop over the operations of a request *)

Section PatchRequestProperties.

Context `{E : Externals}.
Context {F : strings.Folding}.

Lemma validateOperation_unknown_op (t : ResourceType) (r : Request) (index : nat)
    (v : rawOperation) :
  isKnownOp (strings.ToLower (rawOp v)) = false ->
  validateOperation t r index v = Err (unknownOpError index).
Proof.
  unfold isKnownOp, validateOperation. intros Hk.
  apply orb_false_iff in Hk. destruct Hk as [Hk Hrm].
  rewrite Hk, Hrm. reflexivity.
Qed.

Lemma operationsLoop_app (t : ResourceType) (r : Request) (pre rest : list rawOperation) :
  forall (index : nat) (done : list PatchOperation),
    operationsLoop t r index (pre ++ rest) done =
    match operationsLoop t r index pre done with
    | Ok done' => operationsLoop t r (index + length pre) rest done'
    | Err e => Err e
    | Panic msg => Panic msg
    end.
Proof.
  induction pre as [|v pre IH]; simpl; intros index done.
  - now rewrite Nat.add_0_r.
  - destruct (validateOperation t r index v); try reflexivity.
    rewrite IH. now rewrite Nat.add_succ_comm.
Qed.

(** C8, as amended.  A request holding an operation whose verb, in lower
    case, is none of add, replace and remove never yields an operation
    list; and when the operations before it pass, the request fails with
    the InvalidFilter error that cites the 1-based index of that
    operation. *)
Theorem unknown_op_aborts (t : ResourceType) (r : Request) (schemas : list string)
    (pre post : list rawOperation) (v : rawOperation) :
  isKnownOp (strings.ToLower (rawOp v)) = false ->
  (forall pr, validatePatch t r (Decoded schemas (pre ++ v :: post)) <> Ok pr) /\
  (forall done, operationsLoop t r 0 pre [] = Ok done ->
     validatePatch t r (Decoded schemas (pre ++ v :: post))
       = Err (unknownOpError (length pre))) /\
  ScimType (unknownOpError (length pre)) = ScimTypeInvalidFilter.
Proof.
  intros Hk. unfold validatePatch.
  assert (Hlen : (length (pre ++ v :: post) <? 1)%nat = false).
  { rewrite length_app. simpl. apply Nat.ltb_ge. lia. }
  rewrite Hlen, operationsLoop_app. simpl.
  rewrite (validateOperation_unknown_op t r (length pre) v Hk).
  repeat split.
  - intros pr. destruct (operationsLoop t r 0 pre []); discriminate.
  - intros done ->. reflexivity.
Qed.

Lemma operationsLoop_nth (t : ResourceType) (r : Request) (ops : list rawOperation) :
  forall (index : nat) (done out : list PatchOperation),
    operationsLoop t r index ops done = Ok out ->
    forall i v, nth_error ops i = Some v ->
      exists op, nth_error out (length done + i) = Some op /\
                 validateOperation t r (index + i) v = Ok op.
Proof.
  assert (Hkeep : forall ops index done out,
            operationsLoop t r index ops done = Ok out ->
            forall j op, nth_error done j = Some op -> nth_error out j = Some op).
  { clear ops. induction ops as [|v ops IH]; simpl; intros index done out Hout j op Hj.
    - inversion Hout; now subst.
    - destruct (validateOperation t r index v); try discriminate.
      apply (IH _ _ _ Hout). rewrite nth_error_app1; [exact Hj|].
      apply nth_error_Some. congruence. }
  induction ops as [|v0 ops IH]; simpl; intros index done out Hout i v Hi.
  - destruct i; discriminate.
  - destruct (validateOperation t r index v0) as [op0| |] eqn:H0; try discriminate.
    destruct i as [|i]; simpl in Hi.
    + inversion Hi; subst. exists op0. rewrite !Nat.add_0_r. split; [|exact H0].
      apply (Hkeep _ _ _ _ Hout). rewrite nth_error_app2, Nat.sub_diag; [reflexivity | lia].
    + destruct (IH _ _ _ Hout i v Hi) as [op [Hn Hv]].
      exists op. rewrite length_app in Hn. simpl in Hn.
      replace (length done + S i) with (length done + 1 + i) by lia.
      replace (index + S i) with (S index + i) by lia. auto.
Qed.

Lemma canonicalValue_extracted (p : Path) (val : gomap) (old : value) :
  pathSubAttributeName p = "" \/
  (exists m, mget (AttributeName (Path_AttributePath p)) val = VMap m) ->
  canonicalValue p val old =
    extracted (AttributeName (Path_AttributePath p)) (pathSubAttributeName p) val.
Proof.
  unfold canonicalValue, extracted, pathSubAttributeName, Path_SubAttributeName, derefOr.
  destruct (String.eqb (AttributePath_SubAttributeName (Path_AttributePath p)) "") eqn:Ea.
  - destruct (Path_SubAttribute p) as [sub|]; [|reflexivity].
    destruct (String.eqb sub "") eqn:Es; [reflexivity|].
    intros [Hs | [m Hm]].
    + subst sub. discriminate.
    + now rewrite Hm.
  - rewrite Ea. intros [Hs | [m Hm]].
    + rewrite Hs in Ea. discriminate.
    + now rewrite Hm.
Qed.

Lemma canonicalValue_kept (p : Path) (val : gomap) (old : value) :
  pathSubAttributeName p <> "" ->
  (forall m, mget (AttributeName (Path_AttributePath p)) val <> VMap m) ->
  canonicalValue p val old = old.
Proof.
  unfold canonicalValue, pathSubAttributeName, Path_SubAttributeName, derefOr.
  intros Hs Hm.
  destruct (String.eqb (AttributePath_SubAttributeName (Path_AttributePath p)) "") eqn:Ea.
  - destruct (Path_SubAttribute p) as [sub|]; [|now elim Hs].
    destruct (String.eqb sub "") eqn:Es.
    + apply String.eqb_eq in Es. now elim Hs.
    + destruct (mget _ val); try reflexivity. now elim (Hm m).
  - destruct (mget _ val); try reflexivity. now elim (Hm m).
Qed.

Lemma validateOperationValue_bare (t : ResourceType) (r : Request) (op : PatchOperation)
    (p : Path) (val : gomap) :
  Path_ op = Some p ->
  (forall m, Value op <> VMap m) ->
  pathSubAttributeName p <> "" ->
  validateOperationValue t op r = Ok val ->
  exists m, mget (AttributeName (Path_AttributePath p)) val = VMap m.
Proof.
  intros Hp Hbare Hsub. unfold validateOperationValue. rewrite Hp.
  assert (Hmap : operationMapValue p (Value op) =
                 [(AttributeName (Path_AttributePath p),
                   VMap [(pathSubAttributeName p, Value op)])]).
  { unfold operationMapValue. apply String.eqb_neq in Hsub. rewrite Hsub.
    destruct (Value op); try reflexivity. now elim (Hbare m). }
  rewrite Hmap.
  assert (Hone : forall s isExt,
            Schema_ValidatePatchOperation s (Op op)
              [(AttributeName (Path_AttributePath p),
                VMap [(pathSubAttributeName p, Value op)])] isExt = Ok val ->
            exists m, mget (AttributeName (Path_AttributePath p)) val = VMap m).
  { intros s isExt Hv. apply patchLoop_single_mapping in Hv. destruct Hv as [m' ->].
    exists m'. unfold mget. simpl. now rewrite String.eqb_refl. }
  unfold Schema_ValidatePatchOperationValue.
  destruct (negb (String.eqb (AttributeName (Path_AttributePath p)) "") &&
            negb (String.eqb (AttributePath_URI (Path_AttributePath p)) ""));
    [|apply Hone].
  destruct (findExtension _ _) as [ext|]; [|apply Hone].
  destruct (LoadDynamically ext); apply Hone.
Qed.

Lemma validateOperation_resolved (t : ResourceType) (r : Request) (index : nat)
    (v : rawOperation) (vd : Validator) (op : PatchOperation) :
  NewPathValidator (rawPath v) (schemaWithCommon t) (getSchemaExtensions t r) = inr vd ->
  validateOperation t r index v = Ok op ->
  exists val,
    validateOperationValue t
      {| Op := strings.ToLower (strings.ToLower (rawOp v));
         Path_ := Some (Validator_Path vd); Value := rawValue v |} r = Ok val /\
    op = {| Op := strings.ToLower (strings.ToLower (rawOp v));
            Path_ := Some (Validator_Path vd);
            Value := canonicalValue (Validator_Path vd) val (rawValue v) |}.
Proof.
  unfold validateOperation. intros ->. simpl.
  match goal with |- context [match ?c with Some e => Err e | None => _ end] =>
    destruct c; [discriminate|] end.
  destruct (Validator_Validate vd); [discriminate|].
  destruct (validateOperationValue t _ r) as [val| |]; try discriminate.
  intros Hop. inversion Hop. eauto.
Qed.

(** C4, as amended.  For an operation of an accepted request whose path
    resolved, the value validation succeeded with a mapping [val], and the
    operation in the returned list carries: the value of [val] under the
    path's attribute and sub-attribute keys whenever the raw value is not a
    mapping, or the path has no sub-attribute, or the entry of [val] under
    the attribute name is a mapping; and the raw value unchanged when the
    path has a sub-attribute and that entry is no mapping (which a raw
    value that is itself a mapping can bring about). *)
Theorem patch_value_canonicalized (t : ResourceType) (r : Request)
    (schemas : list string) (ops : list rawOperation) (pr : PatchRequest)
    (i : nat) (v : rawOperation) (vd : Validator) :
  validatePatch t r (Decoded schemas ops) = Ok pr ->
  nth_error ops i = Some v ->
  NewPathValidator (rawPath v) (schemaWithCommon t) (getSchemaExtensions t r) = inr vd ->
  let p := Validator_Path vd in
  let attributeName := AttributeName (Path_AttributePath p) in
  exists val op,
    validateOperationValue t
      {| Op := strings.ToLower (strings.ToLower (rawOp v));
         Path_ := Some p; Value := rawValue v |} r = Ok val /\
    nth_error (Operations pr) i = Some op /\
    ((forall m, rawValue v <> VMap m) \/ pathSubAttributeName p = "" \/
     (exists m, mget attributeName val = VMap m) ->
     Value op = extracted attributeName (pathSubAttributeName p) val) /\
    (pathSubAttributeName p <> "" ->
     (forall m, mget attributeName val <> VMap m) ->
     Value op = rawValue v).
Proof.
  intros Hpr Hi Hvd p attributeName. unfold validatePatch in Hpr.
  destruct (length ops <? 1)%nat; [discriminate|].
  destruct (operationsLoop t r 0 ops []) as [out| |] eqn:Hloop; try discriminate.
  inversion Hpr; subst pr; clear Hpr. simpl.
  destruct (operationsLoop_nth t r ops 0 [] out Hloop i v Hi) as [op [Hn Hop]].
  simpl in Hn, Hop.
  destruct (validateOperation_resolved t r i v vd op Hvd Hop) as [val [Hval ->]].
  exists val. eexists. split; [exact Hval|]. split; [exact Hn|]. simpl. split.
  - intros Hcase. apply canonicalValue_extracted.
    destruct Hcase as [Hbare | [Hs | Hm]]; [|now left|now right].
    destruct (string_dec (pathSubAttributeName p) "") as [Hs | Hs]; [now left|].
    right.
    apply (validateOperationValue_bare t r
             {| Op := strings.ToLower (strings.ToLower (rawOp v));
                Path_ := Some p; Value := rawValue v |} p val);
      [reflexivity | exact Hbare | exact Hs | exact Hval].
  - apply canonicalValue_kept.
Qed.

End PatchRequestProperties.

(** ** The properties at concrete inputs *)

(** C5, the claim as stated fails: the readOnly attribute "id" is given a
    value, its validation returns no value, and the output of the
    validation of the resource still has the key "id", with null. *)
Lemma readOnly_attribute_not_dropped :
  mutability sampleId = attributeMutabilityReadOnly /\
  validate sampleId (VString "42") = Ok VNil /\
  Schema_Validate sampleSchema (VMap sampleReadOnlyDocument) = Ok sampleReadOnlyValidated /\
  In (name sampleId) (keys sampleReadOnlyValidated) /\
  mlookup (name sampleId) sampleReadOnlyValidated = Some VNil.
Proof.
  repeat split; try reflexivity. simpl. tauto.
Qed.

Lemma readOnly_value_dropped_witness :
  mutability sampleId = attributeMutabilityReadOnly /\
  VString "42" <> VNil /\
  validate sampleId (VString "42") = Ok VNil /\
  mlookup (name sampleId) sampleReadOnlyValidated = Some VNil.
Proof.
  assert (Hne : VString "42" <> VNil) by discriminate.
  destruct (readOnly_value_dropped (F:=asciiFolding) sampleId (VString "42") eq_refl Hne) as [Hv Hout].
  split; [reflexivity|]. split; [exact Hne|]. split; [exact Hv|].
  apply (Hout sampleSchema sampleReadOnlyDocument false sampleReadOnlyValidated).
  - simpl. tauto.
  - intros b Hb Hn. simpl in Hb.
    repeat (destruct Hb as [<- | Hb]; [try discriminate Hn; reflexivity|]). destruct Hb.
  - reflexivity.
Defined.

(** C2, the claim as stated fails: the readOnly attribute "id", and the
    optional attributes the document does not supply, are keys of the
    returned map, with a null value. *)
Lemma readOnly_key_present :
  Schema_validate sampleSchema (VMap sampleDocument) false = Ok sampleValidated /\
  mutability sampleId = attributeMutabilityReadOnly /\
  In "id" (keys sampleValidated) /\
  supplied "active" sampleDocument = false /\
  In "active" (keys sampleValidated).
Proof.
  repeat split; try reflexivity; simpl; tauto.
Qed.

Lemma validate_output_keys_witness :
  Schema_validate sampleSchema (VMap sampleDocument) false = Ok sampleValidated /\
  (forall k, In k (keys sampleValidated) <-> In k (map name (Attributes_ sampleSchema))) /\
  mlookup "id" sampleValidated = Some VNil /\
  Schema_validate sampleSchema
    (VMap (filter (covered (Attributes_ sampleSchema)) sampleDocument)) false
    = Ok sampleValidated.
Proof.
  destruct (validate_output_keys (F:=asciiFolding) sampleSchema sampleDocument false sampleValidated eq_refl)
    as [Hkeys [_ [Hnull Hfilter]]].
  split; [reflexivity|]. split; [exact Hkeys|]. split; [|exact Hfilter].
  apply (Hnull sampleId); [simpl; tauto|].
  intros b Hb Hn. simpl in Hb.
  repeat (destruct Hb as [<- | Hb]; [try discriminate Hn; now left|]). destruct Hb.
Defined.

(** C6, the claim as stated fails: the document is accepted by [Validate]
    and supplies the immutable attribute "costCenter", yet the error of
    [ValidateMutability] names "employeeNumber", the immutable attribute
    that comes first in the schema. *)
Lemma later_immutable_not_named :
  (exists m, Schema_Validate sampleSchema (VMap sampleImmutableDocument) = Ok m) /\
  mutability sampleCostCenter = attributeMutabilityImmutable /\
  supplied (name sampleCostCenter) sampleImmutableDocument = true /\
  Schema_ValidateMutability sampleSchema (VMap sampleImmutableDocument)
    = Err (mutabilityError sampleEmployeeNumber) /\
  mutabilityError sampleEmployeeNumber <> mutabilityError sampleCostCenter.
Proof.
  split; [eexists; reflexivity|].
  repeat split; try reflexivity. discriminate.
Qed.

Lemma immutable_supplied_rejected_witness :
  (exists m, Schema_Validate sampleSchema (VMap sampleImmutableDocument) = Ok m) /\
  Schema_ValidateMutability sampleSchema (VMap sampleImmutableDocument)
    = Err (mutabilityError sampleEmployeeNumber).
Proof.
  split; [eexists; reflexivity|].
  refine (proj1 (immutable_supplied_rejected (F:=asciiFolding) sampleSchema sampleImmutableDocument
            [sampleUserName; sampleId; sampleActive; sampleName; sampleEmails]
            [sampleCostCenter] sampleEmployeeNumber _ eq_refl eq_refl eq_refl _ eq_refl)).
  intros b Hb Hm. simpl in Hb.
  repeat (destruct Hb as [<- | Hb]; [discriminate Hm|]). destruct Hb.
Defined.

(** C8, the claim as stated fails: the second operation has the verb
    "move", and the request fails on the first one: with the InvalidFilter
    error that cites the index 1 when the first is a "move" too, and with an
    InvalidPath error that cites the index 1 when the first is a remove
    whose path does not resolve. *)
Lemma earlier_failure_wins :
  isKnownOp (strings.ToLower (rawOp sampleMove)) = false /\
  validatePatch sampleResourceType tt (Decoded [] [sampleMove; sampleMove])
    = Err (unknownOpError 0) /\
  unknownOpError 0 <> unknownOpError 1 /\
  validatePatch sampleResourceType tt (Decoded [] [sampleRemoveNoPath; sampleMove])
    = Err (derive errors.ScimErrorInvalidPath
             " Operation number: 1, has failed validation. empty path") /\
  ScimType (derive errors.ScimErrorInvalidPath
              " Operation number: 1, has failed validation. empty path")
    <> ScimTypeInvalidFilter.
Proof.
  repeat split; try reflexivity; discriminate.
Qed.

Lemma unknown_op_aborts_witness :
  isKnownOp (strings.ToLower (rawOp sampleMove)) = false /\
  validatePatch sampleResourceType tt
    (Decoded [] [sampleReplaceActive; sampleMove; sampleReplaceActive])
    = Err (derive errors.ScimErrorInvalidFilter
             " Operation number: 2, has an unrecognized operation type.").
Proof.
  split; [reflexivity|].
  destruct (unknown_op_aborts (F:=asciiFolding) sampleResourceType tt [] [sampleReplaceActive]
              [sampleReplaceActive] sampleMove eq_refl) as [_ [Herr _]].
  exact (Herr _ eq_refl).
Defined.

(** C4, the claim as stated fails: the raw value is a mapping, the path
    names the sub-attribute "givenName" of "name", the validated mapping has
    no entry under "name", and the operation keeps the raw mapping instead
    of the (absent) value under the path's keys. *)
Lemma mapping_value_kept :
  validatePatch sampleResourceType tt (Decoded [] [sampleAddMapping])
    = Ok {| Schemas := [];
            Operations :=
              [{| Op := "add"; Path_ := Some (samplePath "name" (Some "givenName"));
                  Value := VMap [("userName", VString "bob")] |}] |} /\
  validateOperationValue sampleResourceType
    {| Op := "add"; Path_ := Some (samplePath "name" (Some "givenName"));
       Value := VMap [("userName", VString "bob")] |} tt
    = Ok [("userName", VString "bob")] /\
  extracted "name" "givenName" [("userName", VString "bob")] = VNil /\
  VMap [("userName", VString "bob")] <> VNil.
Proof.
  repeat split; try reflexivity. discriminate.
Qed.

Lemma patch_value_canonicalized_witness :
  validatePatch sampleResourceType tt (Decoded [] [sampleReplaceActive])
    = Ok {| Schemas := [];
            Operations :=
              [{| Op := "replace"; Path_ := Some (samplePath "active" None);
                  Value := VBool true |}] |} /\
  exists val op,
    validateOperationValue sampleResourceType
      {| Op := "replace"; Path_ := Some (samplePath "active" None);
         Value := VString "true" |} tt = Ok val /\
    nth_error [{| Op := "replace"; Path_ := Some (samplePath "active" None);
                  Value := VBool true |}] 0 = Some op /\
    ((forall m, VString "true" <> VMap m) \/
     pathSubAttributeName (samplePath "active" None) = "" \/
     (exists m, mget "active" val = VMap m) ->
     Value op = extracted "active" (pathSubAttributeName (samplePath "active" None)) val) /\
    (pathSubAttributeName (samplePath "active" None) <> "" ->
     (forall m, mget "active" val <> VMap m) ->
     Value op = VString "true").
Proof.
  split; [reflexivity|].
  exact (patch_value_canonicalized (F:=asciiFolding) sampleResourceType tt [] [sampleReplaceActive] _ 0
           sampleReplaceActive
           {| Validator_Validate := None; Validator_Path := samplePath "active" None |}
           eq_refl eq_refl eq_refl).
Defined.

(** The coercion of a boolean sent as a string reaches the operation. *)
Example replace_active_coerced :
  validatePatch sampleResourceType tt (Decoded [] [sampleReplaceActive])
    = Ok {| Schemas := [];
            Operations :=
              [{| Op := "replace"; Path_ := Some (samplePath "active" None);
                  Value := VBool true |}] |}.
Proof.
  reflexivity.
Qed.

(** A sub-attribute of a multi-valued attribute is validated through the
    legacy mapping, which keeps the input: the string is not coerced. *)
Example legacy_sub_attribute_not_coerced :
  validatePatch sampleResourceType tt
    (Decoded [] [{| rawOp := "add"; rawPath := "emails.primary"; rawValue := VString "true" |}])
    = Ok {| Schemas := [];
            Operations :=
              [{| Op := "add"; Path_ := Some (samplePath "emails" (Some "primary"));
                  Value := VString "true" |}] |}.
Proof.
  reflexivity.
Qed.

(** * Further properties *)

(** ** The scan of the keys of a mapping *)

(** The number of entries of [m] whose key matches [attrName]. *)
Lemma scanKeys_spec {F : strings.Folding} (attrName : string) (dup : ScimError) (m : gomap) :
  forall (found : bool) (hit : value),
    scanKeys attrName dup m found hit =
      if (2 <=? (if found then 1 else 0) + matches attrName m)%nat then Err dup
      else Ok (found || supplied attrName m,
               if supplied attrName m then hitOf attrName m else hit).
Proof.
  unfold matches.
  induction m as [|[k v] m IH]; simpl; intros found hit.
  - destruct found; reflexivity.
  - destruct (strings.EqualFold attrName k) eqn:Ek; simpl.
    + destruct found; simpl.
      * reflexivity.
      * rewrite IH. simpl.
        destruct (length (filter (fun kv => strings.EqualFold attrName (fst kv)) m)) as [|n] eqn:Hn.
        -- simpl. assert (Hs : supplied attrName m = false).
           { unfold supplied. apply length_zero_iff_nil in Hn.
             clear IH. induction m as [|[k' v'] m IHm]; [reflexivity|]. simpl in *.
             destruct (strings.EqualFold attrName k'); [discriminate | auto]. }
           now rewrite Hs.
        -- reflexivity.
    + apply IH.
Qed.

Lemma scanKeys_start {F : strings.Folding} (attrName : string) (dup : ScimError) (m : gomap) :
  scanKeys attrName dup m false VNil =
    if (2 <=? matches attrName m)%nat then Err dup
    else Ok (supplied attrName m, hitOf attrName m).
Proof.
  rewrite scanKeys_spec. cbv beta iota. rewrite Nat.add_0_l, orb_false_l.
  destruct (2 <=? matches attrName m)%nat; [reflexivity|].
  destruct (supplied attrName m) eqn:Hs; [reflexivity|].
  now rewrite hitOf_missing.
Qed.

Lemma matches_supplied {F : strings.Folding} (attrName : string) (m : gomap) :
  supplied attrName m = negb (matches attrName m =? 0)%nat.
Proof.
  unfold matches, supplied. induction m as [|[k v] m IH]; simpl; [reflexivity|].
  destruct (strings.EqualFold attrName k); simpl; [reflexivity | exact IH].
Qed.

Section ListProperties.

Context `{E : Externals}.
Context {F : strings.Folding}.

Lemma listLoop_Forall2 (f : value -> outcome value) (arr out : list value) :
  listLoop f arr = Ok out <-> Forall2 (fun x y => f x = Ok y) arr out.
Proof.
  revert out. induction arr as [|x arr IH]; simpl; intros out.
  - split; [intros Hl; inversion Hl; constructor | intros Hl; now inversion Hl].
  - split.
    + destruct (f x) as [y| |] eqn:Hx; try discriminate.
      destruct (listLoop f arr) as [l| |]; try discriminate.
      intros Hl. inversion Hl; subst. constructor; [exact Hx | now apply IH].
    + intros Hl. inversion Hl as [|x' y arr' l Hx Hrest]; subst.
      rewrite Hx. apply IH in Hrest. now rewrite Hrest.
Qed.

(** X1.  A multi-valued attribute (not readOnly) given a list that is not
    rejected as empty is accepted exactly when every element passes the
    singular validation, and the result is the list of the validated
    elements, in the order of the input. *)
Theorem multiValued_list_elementwise (a : CoreAttribute) (arr : list value) (r : value) :
  multiValued a = true ->
  isReadOnly a = false ->
  required a && (length arr =? 0)%nat = false ->
  (validate a (VList arr) = Ok r <->
   exists out, r = VList out /\
               Forall2 (fun x y => validateSingular a x = Ok y) arr out).
Proof.
  unfold isReadOnly. intros Hmv Hro Hne.
  rewrite validate_eq, Hro, Hmv, Hne. simpl. split.
  - destruct (listLoop (validateSingular a) arr) as [out| |] eqn:Hl; try discriminate.
    intros Hr. inversion Hr; subst. exists out. split; [reflexivity|].
    now apply listLoop_Forall2.
  - intros [out [-> Hall]]. apply listLoop_Forall2 in Hall. now rewrite Hall.
Qed.

(** X2.  A required multi-valued attribute (not readOnly) rejects the empty
    list and the empty mapping, and a multi-valued attribute rejects every
    value that is neither a list nor a mapping, with an InvalidValue
    error. *)
Theorem multiValued_shape_errors (a : CoreAttribute) (v : value) :
  multiValued a = true ->
  isReadOnly a = false ->
  (required a = true -> v = VList [] \/ v = VMap [] ->
   validate a v = Err (invalidValue (" Multivalued attribute was empty. Attribute name: " ++ name a))) /\
  (v <> VNil -> (forall arr, v <> VList arr) -> (forall m, v <> VMap m) ->
   validate a v = Err (invalidValue (" Multivalued attribute was not an array. Attribute name: " ++ name a))).
Proof.
  unfold isReadOnly. intros Hmv Hro. split.
  - intros Hreq [-> | ->]; rewrite validate_eq, Hro, Hmv, Hreq; reflexivity.
  - intros Hnil Hl Hm. rewrite validate_eq, Hro, Hmv.
    destruct v; simpl; try reflexivity.
    + now elim Hnil.
    + now elim (Hl arr).
    + now elim (Hm m).
Qed.

End ListProperties.

Lemma multiValued_list_elementwise_witness :
  validate sampleEmails (VList [VMap [("value", VString "a")]])
    = Ok (VList [VMap [("value", VString "a"); ("primary", VNil)]]).
Proof.
  apply (multiValued_list_elementwise (F:=asciiFolding) sampleEmails [VMap [("value", VString "a")]]
           (VList [VMap [("value", VString "a"); ("primary", VNil)]])
           eq_refl eq_refl eq_refl).
  eexists. split; [reflexivity|]. repeat constructor.
Defined.

Lemma multiValued_shape_errors_witness :
  validate sampleEmails (VString "a@b")
    = Err (invalidValue (" Multivalued attribute was not an array. Attribute name: emails")).
Proof.
  apply (multiValued_shape_errors (F:=asciiFolding) sampleEmails (VString "a@b") eq_refl eq_refl);
    discriminate.
Defined.

(** ** The complex type *)

Lemma mset_fresh (k : string) (v : value) (m : gomap) :
  ~ In k (keys m) -> mset k v m = (m ++ [(k, v)])%list.
Proof.
  unfold keys. induction m as [|[k0 v0] m IH]; simpl; intros Hk; [reflexivity|].
  destruct (String.eqb k0 k) eqn:E0.
  - apply String.eqb_eq in E0. elim Hk. now left.
  - rewrite IH; [reflexivity|]. intros Hin. apply Hk. now right.
Qed.

Section ComplexProperties.

Context `{E : Externals}.
Context {F : strings.Folding}.

Lemma complexLoop_output (a : CoreAttribute) (complex : gomap) (subs : list CoreAttribute) :
  forall (acc : gomap) (r : value),
    NoDup (map name subs) ->
    (forall sub, In sub subs -> ~ In (name sub) (keys acc)) ->
    complexLoop validate a complex subs acc = Ok r ->
    exists out, r = VMap (acc ++ out)%list /\
                map fst out = map name subs /\
                Forall2 (fun sub kv => validate sub (hitOf (name sub) complex) = Ok (snd kv))
                        subs out.
Proof.
  induction subs as [|sub subs IH]; simpl; intros acc r Hnd Hfresh Hr.
  - inversion Hr; subst. exists []. rewrite app_nil_r. repeat split. constructor.
  - rewrite scanKeys_start in Hr.
    destruct (2 <=? matches (name sub) complex)%nat; [discriminate|].
    destruct (validate sub (hitOf (name sub) complex)) as [attr| |] eqn:Hv; try discriminate.
    inversion Hnd as [|n ns Hn Hnd']; subst.
    rewrite mset_fresh in Hr by (apply Hfresh; now left).
    apply IH in Hr; [|exact Hnd'|].
    + destruct Hr as [out [-> [Hkeys Hall]]].
      exists ((name sub, attr) :: out). rewrite <- app_assoc. simpl.
      split; [reflexivity|]. split; [now rewrite Hkeys|]. now constructor.
    + intros s Hs Hin. unfold keys in Hin. rewrite map_app in Hin. simpl in Hin.
      apply in_app_or in Hin. destruct Hin as [Hin | [Heq | []]].
      * apply (Hfresh s); [now right | exact Hin].
      * apply Hn. rewrite Heq. now apply in_map.
Qed.

(** X3.  A complex attribute whose sub-attributes have distinct names,
    given a mapping it accepts, returns a mapping with exactly one entry
    per sub-attribute, in the order of the sub-attributes and under their
    names as the schema spells them; each entry holds what the
    sub-attribute's validation returned for the input entry whose key
    matches its name without regard to case (for the absent value when
    there is none). *)
Theorem complex_output (a : CoreAttribute) (complex : gomap) (r : value) :
  typ a = attributeDataTypeComplex ->
  NoDup (map name (subAttributes a)) ->
  validateSingular a (VMap complex) = Ok r ->
  exists out, r = VMap out /\
              map fst out = map name (subAttributes a) /\
              Forall2 (fun sub kv => validate sub (hitOf (name sub) complex) = Ok (snd kv))
                      (subAttributes a) out.
Proof.
  unfold validateSingular, validateSingular_. intros Ht Hnd Hr. rewrite Ht in Hr.
  apply complexLoop_output in Hr; [|exact Hnd|intros sub _ []].
  destruct Hr as [out [-> H]]. exists out. split; [reflexivity | exact H].
Qed.

Lemma complexLoop_duplicate (a : CoreAttribute) (complex : gomap) (sub : CoreAttribute)
    (subs : list CoreAttribute) :
  In sub subs ->
  (2 <= matches (name sub) complex)%nat ->
  forall acc, exists e, complexLoop validate a complex subs acc = Err e /\
                        ScimType e = ScimTypeInvalidValue.
Proof.
  intros Hin Hdup. induction subs as [|s subs IH]; simpl; intros acc; [destruct Hin|].
  rewrite scanKeys_start.
  destruct (2 <=? matches (name s) complex)%nat eqn:Hs; [eexists; split; reflexivity|].
  destruct Hin as [-> | Hin].
  - apply Nat.leb_le in Hdup. congruence.
  - pose proof (validate_sound s (hitOf (name s) complex)) as Hv.
    destruct (validate s _) as [attr|e|msg]; simpl in Hv.
    + now apply IH.
    + exists e. auto.
    + destruct Hv.
Qed.

(** X4.  A complex attribute given a mapping in which two keys match the
    name of one of its sub-attributes without regard to case rejects the
    mapping with an InvalidValue error. *)
Theorem complex_duplicate_rejected (a sub : CoreAttribute) (complex : gomap) :
  typ a = attributeDataTypeComplex ->
  In sub (subAttributes a) ->
  (2 <= matches (name sub) complex)%nat ->
  exists e, validateSingular a (VMap complex) = Err e /\ ScimType e = ScimTypeInvalidValue.
Proof.
  unfold validateSingular, validateSingular_. intros Ht Hin Hdup. rewrite Ht.
  now apply (complexLoop_duplicate a complex sub).
Qed.

(** ** Stability of the validated values *)

(** X5.  For an attribute of a type other than complex, a value that the
    singular validation returned is accepted again and returned as it is:
    the coercions (string to boolean, number literal to integer or to
    decimal) are applied once. *)
Theorem validateSingular_stable (a : CoreAttribute) (v v' : value) :
  typ a <> attributeDataTypeComplex ->
  validateSingular a v = Ok v' ->
  validateSingular a v' = Ok v'.
Proof.
  unfold validateSingular, validateSingular_. intros Ht.
  destruct (typ a); try (now elim Ht); destruct v; try discriminate;
    intros Hv;
    repeat match type of Hv with
           | context [if ?c then _ else _] => destruct c eqn:?; try discriminate
           | context [match ?c with Some _ => _ | None => _ end] =>
               destruct c eqn:?; try discriminate
           end;
    inversion Hv; subst; try reflexivity.
  - now rewrite Heqb.
  - now rewrite Heqb.
Qed.

End ComplexProperties.

Lemma complex_output_witness :
  validateSingular sampleName (VMap [("GIVENNAME", VString "Ada"); ("zip", VString "1")])
    = Ok (VMap [("givenName", VString "Ada"); ("familyName", VNil)]) /\
  exists out, VMap [("givenName", VString "Ada"); ("familyName", VNil)] = VMap out /\
              map fst out = map name (subAttributes sampleName).
Proof.
  split; [reflexivity|].
  destruct (complex_output (F:=asciiFolding) sampleName [("GIVENNAME", VString "Ada"); ("zip", VString "1")]
              (VMap [("givenName", VString "Ada"); ("familyName", VNil)]) eq_refl)
    as [out [Hout [Hkeys _]]].
  - simpl. repeat constructor; simpl; intuition discriminate.
  - reflexivity.
  - exists out. auto.
Defined.

Lemma complex_duplicate_rejected_witness :
  exists e, validateSingular sampleName
              (VMap [("givenName", VString "Ada"); ("GivenName", VString "Bob")]) = Err e /\
            ScimType e = ScimTypeInvalidValue.
Proof.
  apply (complex_duplicate_rejected (F:=asciiFolding) sampleName
           (simpleAttribute "givenName" attributeDataTypeString attributeMutabilityReadWrite
              false false)
           [("givenName", VString "Ada"); ("GivenName", VString "Bob")] eq_refl).
  - simpl. now left.
  - simpl. apply le_n.
Defined.

Lemma validateSingular_stable_witness :
  validateSingular sampleActive (VString "true") = Ok (VBool true) /\
  validateSingular sampleActive (VBool true) = Ok (VBool true).
Proof.
  split; [reflexivity|].
  apply (validateSingular_stable (F:=asciiFolding) sampleActive (VString "true") (VBool true));
    [discriminate | reflexivity].
Defined.

(** ** The binary type *)

Lemma base64Match_shape :
  forall (n : nat) (s : string),
    String.length s <= n ->
    base64Match s = true ->
    Nat.modulo (String.length s) 4 = 0 /\
    forall c, In c (list_ascii_of_string s) -> base64Char c = true \/ isPad c = true.
Proof.
  induction n as [|n IH]; intros s Hlen Hm.
  - destruct s; [split; [reflexivity | intros c []] | simpl in Hlen; lia].
  - destruct s as [|c1 [|c2 [|c3 [|c4 rest]]]]; try discriminate.
    + split; [reflexivity | intros c []].
    + simpl in Hm, Hlen.
      destruct (base64Char c1 && base64Char c2 && base64Char c3 && base64Char c4) eqn:Hall.
      * apply andb_true_iff in Hall. destruct Hall as [Hall H4].
        apply andb_true_iff in Hall. destruct Hall as [Hall H3].
        apply andb_true_iff in Hall. destruct Hall as [H1 H2].
        destruct (IH rest) as [Hmod Hch]; [lia | exact Hm |]. split.
        -- simpl String.length.
           replace (S (S (S (S (String.length rest))))) with (String.length rest + 1 * 4) by lia.
           now rewrite Nat.Div0.mod_add.
        -- simpl. intros c [<- | [<- | [<- | [<- | Hc]]]]; auto.
      * destruct rest; [|discriminate].
        apply andb_true_iff in Hm. destruct Hm as [H12 H34].
        apply andb_true_iff in H12. destruct H12 as [H1 H2].
        split; [reflexivity|].
        simpl. intros c [<- | [<- | [<- | [<- | []]]]]; auto;
          apply orb_true_iff in H34; destruct H34 as [H34 | H34];
          apply andb_true_iff in H34; destruct H34; auto.
Qed.

Section BinaryProperties.

Context `{E : Externals}.
Context {F : strings.Folding}.

(** X6.  A binary attribute returns an accepted value unchanged, and
    accepts only strings whose length is a multiple of four and whose
    characters are letters, digits, [+], [/] or the padding [=]. *)
Theorem binary_accepts_padded_base64 (a : CoreAttribute) (v r : value) :
  typ a = attributeDataTypeBinary ->
  validateSingular a v = Ok r ->
  r = v /\
  exists s, v = VString s /\
            Nat.modulo (String.length s) 4 = 0 /\
            forall c, In c (list_ascii_of_string s) -> base64Char c = true \/ isPad c = true.
Proof.
  unfold validateSingular, validateSingular_. intros Ht Hr. rewrite Ht in Hr.
  destruct v; try discriminate.
  destruct (base64Match s) eqn:Hm; [|discriminate].
  inversion Hr; subst. split; [reflexivity|]. exists s. split; [reflexivity|].
  now apply (base64Match_shape (String.length s)).
Qed.

End BinaryProperties.

Lemma binary_accepts_padded_base64_witness :
  validateSingular (simpleAttribute "photo" attributeDataTypeBinary
                      attributeMutabilityReadWrite false false) (VString "QUI=")
    = Ok (VString "QUI=") /\
  Nat.modulo (String.length "QUI=") 4 = 0.
Proof.
  split; [reflexivity|].
  destruct (binary_accepts_padded_base64 (F:=asciiFolding)
              (simpleAttribute "photo" attributeDataTypeBinary
                 attributeMutabilityReadWrite false false)
              (VString "QUI=") (VString "QUI=") eq_refl eq_refl)
    as [_ [s [Hs [Hmod _]]]].
  inversion Hs; subst. exact Hmod.
Defined.

(** ** Validation of a resource: errors *)

Section SchemaErrors.

Context `{E : Externals}.
Context {F : strings.Folding}.

Lemma validateLoop_app (checkMutability : bool) (core : gomap) (pre post : Attributes) :
  forall acc,
    validateLoop checkMutability core (pre ++ post)%list acc =
    match validateLoop checkMutability core pre acc with
    | Ok acc' => validateLoop checkMutability core post acc'
    | Err e => Err e
    | Panic msg => Panic msg
    end.
Proof.
  induction pre as [|a pre IH]; simpl; intros acc; [reflexivity|].
  destruct (scanKeys (name a) _ core false VNil) as [[found hit]| |]; try reflexivity.
  destruct (found && checkMutability && isImmutableMutability (mutability a)); [reflexivity|].
  destruct (validate a hit); try reflexivity. apply IH.
Qed.

Lemma validateLoop_errors (checkMutability : bool) (core : gomap) (attrs : Attributes) :
  forall acc,
    match validateLoop checkMutability core attrs acc with
    | Ok _ => True
    | Err e =>
        ScimType e = ScimTypeInvalidValue \/
        ScimType e = ScimTypeDuplicateAttributeFound \/
        (checkMutability = true /\ ScimType e = ScimTypeMutability)
    | Panic _ => False
    end.
Proof.
  induction attrs as [|a attrs IH]; simpl; intros acc; [exact I|].
  rewrite scanKeys_start.
  destruct (2 <=? matches (name a) core)%nat; [right; left; reflexivity|].
  destruct (supplied (name a) core && checkMutability &&
            isImmutableMutability (mutability a)) eqn:Hg.
  - right. right. split; [|reflexivity].
    apply andb_true_iff in Hg. destruct Hg as [Hg _].
    now apply andb_true_iff in Hg.
  - pose proof (validate_sound a (hitOf (name a) core)) as Hv.
    destruct (validate a (hitOf (name a) core)); simpl in Hv; [apply IH | now left | exact Hv].
Qed.

(** X7.  [Schema.validate] never panics.  It fails with InvalidSyntax on a
    resource that is not a mapping; on a mapping its errors are InvalidValue,
    DuplicateAttributeFound or, only when mutability is checked,
    Mutability. *)
Theorem Schema_validate_errors (s : Schema) (resource : value) (checkMutability : bool) :
  match Schema_validate s resource checkMutability with
  | Ok _ => exists core, resource = VMap core
  | Err e =>
      match resource with
      | VMap _ =>
          ScimType e = ScimTypeInvalidValue \/
          ScimType e = ScimTypeDuplicateAttributeFound \/
          (checkMutability = true /\ ScimType e = ScimTypeMutability)
      | _ => e = errors.ScimErrorInvalidSyntax
      end
  | Panic _ => False
  end.
Proof.
  unfold Schema_validate. destruct resource; try reflexivity.
  pose proof (validateLoop_errors checkMutability m (Attributes_ s) []) as Hl.
  destruct (validateLoop checkMutability m (Attributes_ s) []); eauto.
Qed.

(** X8.  A mapping in which two keys match the name of an attribute of the
    schema without regard to case is never accepted; when the attributes
    before that one pass, the error is DuplicateAttributeFound and names
    the attribute. *)
Theorem duplicate_keys_rejected (s : Schema) (core : gomap) (checkMutability : bool)
    (pre post : Attributes) (a : CoreAttribute) :
  Attributes_ s = (pre ++ a :: post)%list ->
  (2 <= matches (name a) core)%nat ->
  (forall m, Schema_validate s (VMap core) checkMutability <> Ok m) /\
  (forall acc, validateLoop checkMutability core pre [] = Ok acc ->
     Schema_validate s (VMap core) checkMutability = Err (duplicateError a)).
Proof.
  unfold Schema_validate. intros -> Hdup. rewrite validateLoop_app.
  assert (Hstep : forall acc, validateLoop checkMutability core (a :: post) acc
                              = Err (duplicateError a)).
  { intros acc. simpl. rewrite scanKeys_start.
    apply Nat.leb_le in Hdup. now rewrite Hdup. }
  split.
  - intros m. destruct (validateLoop checkMutability core pre []); [|discriminate..].
    now rewrite Hstep.
  - intros acc ->. apply Hstep.
Qed.

(** X9.  A mapping that supplies no key for a required attribute of the
    schema is never accepted, whatever the mutability of the attribute; when
    the attributes before that one pass, the error is InvalidValue and names
    the attribute. *)
Theorem required_missing_rejected (s : Schema) (core : gomap) (checkMutability : bool)
    (pre post : Attributes) (a : CoreAttribute) :
  Attributes_ s = (pre ++ a :: post)%list ->
  required a = true ->
  supplied (name a) core = false ->
  (forall m, Schema_validate s (VMap core) checkMutability <> Ok m) /\
  (forall acc, validateLoop checkMutability core pre [] = Ok acc ->
     Schema_validate s (VMap core) checkMutability
       = Err (invalidValue (" Attribute name: " ++ name a))).
Proof.
  unfold Schema_validate. intros -> Hreq Hsup. rewrite validateLoop_app.
  assert (Hstep : forall acc, validateLoop checkMutability core (a :: post) acc
                              = Err (invalidValue (" Attribute name: " ++ name a))).
  { intros acc. simpl. rewrite scanKeys_start.
    rewrite matches_supplied in Hsup. apply negb_false_iff, Nat.eqb_eq in Hsup.
    rewrite Hsup. simpl.
    assert (Hs : supplied (name a) core = false)
      by (rewrite matches_supplied, Hsup; reflexivity).
    rewrite Hs, (hitOf_missing _ _ Hs), validate_null, Hreq. reflexivity. }
  split.
  - intros m. destruct (validateLoop checkMutability core pre []); [|discriminate..].
    now rewrite Hstep.
  - intros acc ->. apply Hstep.
Qed.

End SchemaErrors.

Lemma duplicate_keys_rejected_witness :
  Schema_Validate sampleSchema (VMap [("userName", VString "a"); ("USERNAME", VString "b")])
    = Err (duplicateError sampleUserName).
Proof.
  destruct (duplicate_keys_rejected (F:=asciiFolding) sampleSchema
              [("userName", VString "a"); ("USERNAME", VString "b")] false []
              [sampleId; sampleActive; sampleName; sampleEmails; sampleEmployeeNumber;
               sampleCostCenter] sampleUserName eq_refl (le_n 2)) as [_ Herr].
  exact (Herr [] eq_refl).
Defined.

Lemma required_missing_rejected_witness :
  Schema_Validate sampleSchema (VMap [("active", VBool true)])
    = Err (invalidValue " Attribute name: userName").
Proof.
  destruct (required_missing_rejected (F:=asciiFolding) sampleSchema [("active", VBool true)] false []
              [sampleId; sampleActive; sampleName; sampleEmails; sampleEmployeeNumber;
               sampleCostCenter] sampleUserName eq_refl eq_refl eq_refl) as [_ Herr].
  exact (Herr [] eq_refl).
Defined.

(** ** PATCH: resolution of the keys and the validated mapping *)

Lemma resolveAttribute_ContainsAttribute {F : strings.Folding} (id k : string) (attrs : Attributes) :
  resolveAttribute id false k attrs = ContainsAttribute attrs k.
Proof.
  induction attrs as [|a attrs IH]; simpl; [reflexivity|].
  rewrite (EqualFold_sym k (name a)).
  destruct (strings.EqualFold (name a) k); [reflexivity | exact IH].
Qed.

(** X10.  [ContainsAttribute] finds the first attribute, in the order of
    the list, whose name equals the given name without regard to case, and
    finds nothing exactly when no attribute has such a name; a key of a
    PATCH value on a schema that is not an extension resolves to the same
    attribute. *)
Theorem ContainsAttribute_first {F : strings.Folding} (attrs : Attributes) (n : string) :
  match ContainsAttribute attrs n with
  | Some a =>
      exists pre post, attrs = (pre ++ a :: post)%list /\
                       strings.EqualFold n (name a) = true /\
                       forall b, In b pre -> strings.EqualFold n (name b) = false
  | None => forall b, In b attrs -> strings.EqualFold n (name b) = false
  end /\
  forall id, resolveAttribute id false n attrs = ContainsAttribute attrs n.
Proof.
  split; [|intros id; apply resolveAttribute_ContainsAttribute].
  induction attrs as [|a attrs IH]; simpl.
  - intros b [].
  - destruct (strings.EqualFold n (name a)) eqn:Ea.
    + exists [], attrs. repeat split; [exact Ea | intros b []].
    + destruct (ContainsAttribute attrs n) as [c|].
      * destruct IH as [pre [post [-> [Hc Hpre]]]].
        exists (a :: pre), post. repeat split; [exact Hc|].
        intros b [<- | Hb]; [exact Ea | now apply Hpre].
      * intros b [<- | Hb]; [exact Ea | now apply IH].
Qed.

Section PatchOutput.

Context `{E : Externals}.
Context {F : strings.Folding}.

Lemma patchLoop_output (s : Schema) (operation : string) (isExtension : bool)
    (operationValue : gomap) :
  NoDup (keys operationValue) ->
  forall acc value,
    (forall k, In k (keys operationValue) -> ~ In k (keys acc)) ->
    (patchLoop s operation isExtension operationValue acc = Ok value <->
     exists out, value = (acc ++ out)%list /\
                 Forall2 (patched s operation isExtension) operationValue out).
Proof.
  unfold patched.
  induction operationValue as [|[k v] rest IH]; simpl; intros Hnd acc value Hfresh.
  - split.
    + intros Hv. inversion Hv; subst. exists []. rewrite app_nil_r. split; constructor.
    + intros [out [-> Hall]]. inversion Hall. now rewrite app_nil_r.
  - inversion Hnd as [|k' ks Hk Hnd']; subst.
    assert (Hfresh' : forall c k0, In k0 (keys rest) -> ~ In k0 (keys (mset k c acc))).
    { intros c k0 Hin Hacc. apply keys_mset in Hacc. destruct Hacc as [-> | Hacc].
      - now apply Hk.
      - apply (Hfresh k0); [now right | exact Hacc]. }
    split.
    + destruct (resolveAttribute _ _ k _) as [attr|] eqn:Hres; [|discriminate].
      destruct (cannotBePatched operation attr) eqn:Hc; [discriminate|].
      destruct (validate attr v) as [c| |] eqn:Hv; try discriminate.
      intros Hloop. apply (IH Hnd' _ _ (Hfresh' c)) in Hloop.
      destruct Hloop as [out [-> Hall]].
      rewrite mset_fresh by (apply Hfresh; now left).
      exists ((k, c) :: out). rewrite <- app_assoc. split; [reflexivity|].
      constructor; [|exact Hall]. simpl. split; [reflexivity|]. exists attr. auto.
    + intros [out [-> Hall]].
      inversion Hall as [|kv [k1 c] rest' out' [Hk1 [attr [Hres [Hc Hv]]]] Hrest]; subst.
      simpl in *. subst k1. rewrite Hres, Hc, Hv.
      apply (IH Hnd' _ _ (Hfresh' c)). exists out'.
      rewrite mset_fresh by (apply Hfresh; now left).
      rewrite <- app_assoc. auto.
Qed.

(** X11.  [ValidatePatchOperation] returns a mapping exactly when every key
    of the operation value resolves to an attribute that the operation may
    patch and whose validation accepts the value; the mapping then has the
    keys of the operation value, as the client spelt them and in their
    order, each with the validated value. *)
Theorem patch_operation_output (s : Schema) (operation : string) (isExtension : bool)
    (operationValue value : gomap) :
  NoDup (keys operationValue) ->
  (Schema_ValidatePatchOperation s operation operationValue isExtension = Ok value <->
   Forall2 (patched s operation isExtension) operationValue value).
Proof.
  intros Hnd. unfold Schema_ValidatePatchOperation.
  rewrite (patchLoop_output s operation isExtension operationValue Hnd [] value)
    by (intros k _ []).
  simpl. split; [intros [out [-> Hall]]; exact Hall | eauto].
Qed.

Lemma patchLoop_forbidden (s : Schema) (operation : string) (isExtension : bool)
    (k : string) (v : value) (attr : CoreAttribute) (operationValue : gomap) :
  In (k, v) operationValue ->
  resolveAttribute (ID s) isExtension k (Attributes_ s) = Some attr ->
  cannotBePatched operation attr = true ->
  forall acc value, patchLoop s operation isExtension operationValue acc <> Ok value.
Proof.
  intros Hin Hres Hc.
  induction operationValue as [|[k0 v0] rest IH]; simpl; intros acc value; [destruct Hin|].
  destruct Hin as [Heq | Hin].
  - inversion Heq; subst. rewrite Hres, Hc. discriminate.
  - destruct (resolveAttribute _ _ k0 _) as [a0|]; [|discriminate].
    destruct (cannotBePatched operation a0); [discriminate|].
    destruct (validate a0 v0); [now apply IH | discriminate..].
Qed.

(** X12.  No PATCH value reaches a readOnly attribute, and no replace or
    remove reaches an immutable one: when a key of the operation value
    resolves to such an attribute, [ValidatePatchOperation] returns no
    mapping, whatever the other keys are. *)
Theorem patch_never_reaches_forbidden (s : Schema) (operation : string)
    (isExtension : bool) (k : string) (v : value) (attr : CoreAttribute)
    (operationValue : gomap) :
  In (k, v) operationValue ->
  resolveAttribute (ID s) isExtension k (Attributes_ s) = Some attr ->
  mutability attr = attributeMutabilityReadOnly \/
  (mutability attr = attributeMutabilityImmutable /\
   (operation = "replace" \/ operation = "remove")) ->
  refused (Schema_ValidatePatchOperation s operation operationValue isExtension).
Proof.
  intros Hin Hres Hmut. apply cannotBePatched_spec in Hmut.
  pose proof (patchLoop_forbidden s operation isExtension k v attr operationValue
                Hin Hres Hmut []) as Hno.
  unfold Schema_ValidatePatchOperation, refused.
  destruct (patchLoop s operation isExtension operationValue []); [now elim (Hno a) | exact I..].
Qed.

End PatchOutput.

Lemma ContainsAttribute_first_witness :
  ContainsAttribute (Attributes_ sampleSchema) "ACTIVE" = Some sampleActive /\
  resolveAttribute (ID sampleSchema) false "ACTIVE" (Attributes_ sampleSchema)
    = Some sampleActive.
Proof.
  split; [reflexivity|].
  destruct (ContainsAttribute_first (F:=asciiFolding) (Attributes_ sampleSchema) "ACTIVE") as [_ Hres].
  rewrite Hres. reflexivity.
Defined.

Lemma patch_operation_output_witness :
  Schema_ValidatePatchOperation sampleSchema "replace" [("ACTIVE", VString "true")] false
    = Ok [("ACTIVE", VBool true)].
Proof.
  apply (patch_operation_output (F:=asciiFolding) sampleSchema "replace" false).
  - repeat constructor. intros [].
  - repeat constructor. exists sampleActive. repeat split.
Defined.

Lemma patch_never_reaches_forbidden_witness :
  refused (Schema_ValidatePatchOperation sampleSchema "remove"
             [("active", VBool true); ("employeeNumber", VString "7")] false).
Proof.
  apply (patch_never_reaches_forbidden (F:=asciiFolding) sampleSchema "remove" false "employeeNumber"
           (VString "7") sampleEmployeeNumber).
  - simpl. auto.
  - reflexivity.
  - right. split; [reflexivity | now right].
Defined.

(** ** PATCH: the request as a whole *)

Section PatchComposition.

Context `{E : Externals}.
Context {F : strings.Folding}.

Lemma operationsLoop_length (t : ResourceType) (r : Request) (ops : list rawOperation) :
  forall index done out,
    operationsLoop t r index ops done = Ok out ->
    exists outs, out = (done ++ outs)%list /\ length outs = length ops.
Proof.
  induction ops as [|v ops IH]; simpl; intros index done out Hout.
  - inversion Hout; subst. exists []. now rewrite app_nil_r.
  - destruct (validateOperation t r index v) as [op| |]; try discriminate.
    apply IH in Hout. destruct Hout as [outs [-> Hlen]].
    exists (op :: outs). rewrite <- app_assoc. simpl. auto.
Qed.

Lemma operationsLoop_complete (t : ResourceType) (r : Request) (ops : list rawOperation) :
  forall index done outs,
    validatedFrom t r index ops outs ->
    operationsLoop t r index ops done = Ok (done ++ outs)%list.
Proof.
  unfold validatedFrom.
  induction ops as [|v ops IH]; simpl; intros index done outs [Hlen Hall].
  - destruct outs; [now rewrite app_nil_r | discriminate].
  - destruct outs as [|op outs]; [discriminate|].
    destruct (Hall 0 v eq_refl) as [op0 [Hop0 Hv]]. simpl in Hop0. inversion Hop0; subst op0.
    rewrite Nat.add_0_r in Hv. rewrite Hv.
    rewrite (IH (S index) (done ++ [op])%list outs).
    + now rewrite <- app_assoc.
    + split; [simpl in Hlen; lia|].
      intros i w Hi. destruct (Hall (S i) w Hi) as [o [Ho Hw]].
      exists o. split; [exact Ho|]. now rewrite Nat.add_succ_comm.
Qed.

Lemma validateOperation_op (t : ResourceType) (r : Request) (index : nat)
    (v : rawOperation) (op : PatchOperation) :
  validateOperation t r index v = Ok op ->
  Op op = strings.ToLower (rawOp v) /\ isKnownOp (Op op) = true.
Proof.
  unfold validateOperation. intros Hop.
  destruct (isKnownOp (strings.ToLower (rawOp v))) eqn:Hk.
  - assert (HOp : Op op = strings.ToLower (rawOp v)).
    { rewrite ToLower_idempotent in Hop.
      repeat match type of Hop with
             | context [match ?c with _ => _ end] => destruct c; try discriminate
             end; inversion Hop; reflexivity. }
    now rewrite HOp.
  - exfalso. unfold isKnownOp in Hk. apply orb_false_iff in Hk. destruct Hk as [Hk Hrm].
    rewrite Hk, Hrm in Hop. discriminate.
Qed.

(** X13.  [validatePatch] returns a request exactly when the body holds at
    least one operation and every operation passes at its position; the
    request returned keeps the schemas of the body and holds one operation
    per operation of the body, in the same order, each with its verb in
    lower case, which is one of add, replace and remove. *)
Theorem validatePatch_composition (t : ResourceType) (r : Request)
    (schemas : list string) (ops : list rawOperation) (pr : PatchRequest) :
  (validatePatch t r (Decoded schemas ops) = Ok pr <->
   ops <> [] /\ Schemas pr = schemas /\ validatedFrom t r 0 ops (Operations pr)) /\
  (validatePatch t r (Decoded schemas ops) = Ok pr ->
   forall i v op, nth_error ops i = Some v -> nth_error (Operations pr) i = Some op ->
     Op op = strings.ToLower (rawOp v) /\ isKnownOp (Op op) = true).
Proof.
  assert (Hfwd : validatePatch t r (Decoded schemas ops) = Ok pr ->
                 ops <> [] /\ Schemas pr = schemas /\
                 validatedFrom t r 0 ops (Operations pr)).
  { unfold validatePatch. destruct ops as [|v0 ops0] eqn:Hops; [discriminate|].
    rewrite <- Hops.
    replace (length ops <? 1)%nat with false by (subst ops; reflexivity).
    destruct (operationsLoop t r 0 ops []) as [out| |] eqn:Hloop; try discriminate.
    intros Hpr. inversion Hpr; subst pr; clear Hpr. simpl.
    split; [subst ops; discriminate|]. split; [reflexivity|].
    destruct (operationsLoop_length t r ops 0 [] out Hloop) as [outs [Hout Hlen]].
    simpl in Hout. subst outs. split; [exact Hlen|].
    intros i v Hi.
    destruct (operationsLoop_nth t r ops 0 [] out Hloop i v Hi) as [op [Hn Hv]].
    exists op. auto. }
  split; [split; [exact Hfwd|]|].
  - intros [Hne [Hs Hval]]. unfold validatePatch.
    destruct ops as [|v0 ops0] eqn:Hops; [now elim Hne|]. rewrite <- Hops in *.
    replace (length ops <? 1)%nat with false by (subst ops; reflexivity).
    rewrite (operationsLoop_complete t r ops 0 [] (Operations pr) Hval). simpl.
    destruct pr; simpl in *. now subst.
  - intros Hpr i v op Hi Ho.
    destruct (Hfwd Hpr) as [_ [_ [_ Hall]]].
    destruct (Hall i v Hi) as [op' [Ho' Hv]]. rewrite Ho in Ho'. inversion Ho'; subst op'.
    now apply (validateOperation_op t r (0 + i) v).
Qed.

(** X14.  An operation whose path the resolver cannot parse fails with an
    InvalidPath error that cites its 1-based index and the resolver's
    message when it is a remove, or an add or a replace with a path that is
    not empty; so does any operation of a known verb whose parsed path the
    resolver's validation rejects. *)
Theorem unresolved_path_rejected (t : ResourceType) (r : Request) (index : nat)
    (v : rawOperation) :
  isKnownOp (strings.ToLower (rawOp v)) = true ->
  match NewPathValidator (rawPath v) (schemaWithCommon t) (getSchemaExtensions t r) with
  | inl err =>
      strings.ToLower (rawOp v) = "remove" \/ rawPath v <> "" ->
      validateOperation t r index v = Err (invalidPathError index err)
  | inr vd =>
      forall err, Validator_Validate vd = Some err ->
                  validateOperation t r index v = Err (invalidPathError index err)
  end.
Proof.
  unfold isKnownOp, validateOperation, invalidPathError, patchError. intros Hk.
  destruct (NewPathValidator _ _ _) as [err | vd].
  - intros Hcase.
    destruct (String.eqb (strings.ToLower (rawOp v)) PatchOperationAdd ||
              String.eqb (strings.ToLower (rawOp v)) PatchOperationReplace) eqn:Har.
    + destruct Hcase as [Hrm | Hp].
      * rewrite Hrm in Har. discriminate.
      * apply String.eqb_neq in Hp. now rewrite Hp.
    + simpl in Hk. now rewrite Hk.
  - intros err Herr.
    destruct (String.eqb (strings.ToLower (rawOp v)) PatchOperationAdd ||
              String.eqb (strings.ToLower (rawOp v)) PatchOperationReplace) eqn:Har.
    + now rewrite Herr.
    + simpl in Hk. now rewrite Hk, Herr.
Qed.

(** X15.  An add or a replace with the empty path, which the resolver does
    not parse, passes without any validation of its value: the operation
    returned has the verb in lower case, no path, and the value as it was
    given. *)
Theorem empty_path_passes_unvalidated (t : ResourceType) (r : Request) (index : nat)
    (v : rawOperation) (err : string) :
  strings.ToLower (rawOp v) = "add" \/ strings.ToLower (rawOp v) = "replace" ->
  rawPath v = "" ->
  NewPathValidator "" (schemaWithCommon t) (getSchemaExtensions t r) = inl err ->
  validateOperation t r index v
    = Ok {| Op := strings.ToLower (rawOp v); Path_ := None; Value := rawValue v |}.
Proof.
  unfold validateOperation. intros Hop Hp Hres. rewrite Hp, Hres, ToLower_idempotent.
  destruct Hop as [-> | ->]; reflexivity.
Qed.

(** X16.  The coercion reaches the operation: for an operation of a known
    verb whose path resolves to an attribute of the resource type's schema
    (the common attribute included), without sub-attribute and without
    schema prefix, and whose value is no mapping, when the operation may
    patch the attribute and the attribute's validation accepts the value,
    the operation returned carries the validated value. *)
Theorem patch_bare_value_coerced (t : ResourceType) (r : Request) (index : nat)
    (v : rawOperation) (vd : Validator) (attr : CoreAttribute) (c : value) :
  NewPathValidator (rawPath v) (schemaWithCommon t) (getSchemaExtensions t r) = inr vd ->
  Validator_Validate vd = None ->
  isKnownOp (strings.ToLower (rawOp v)) = true ->
  pathSubAttributeName (Validator_Path vd) = "" ->
  AttributePath_URI (Path_AttributePath (Validator_Path vd)) = "" ->
  (forall m, rawValue v <> VMap m) ->
  ContainsAttribute (Attributes_ (schemaWithCommon t))
    (AttributeName (Path_AttributePath (Validator_Path vd))) = Some attr ->
  cannotBePatched (strings.ToLower (rawOp v)) attr = false ->
  validate attr (rawValue v) = Ok c ->
  validateOperation t r index v
    = Ok {| Op := strings.ToLower (rawOp v); Path_ := Some (Validator_Path vd); Value := c |}.
Proof.
  intros Hres Hval Hk Hsub Huri Hbare Hattr Hc Hv.
  set (p := Validator_Path vd) in *.
  set (attributeName := AttributeName (Path_AttributePath p)) in *.
  assert (Hvalue : validateOperationValue t
                     {| Op := strings.ToLower (rawOp v); Path_ := Some p;
                        Value := rawValue v |} r = Ok [(attributeName, c)]).
  { assert (Hmap : operationMapValue p (rawValue v) = [(attributeName, rawValue v)]).
    { unfold operationMapValue. rewrite Hsub. simpl.
      destruct (rawValue v); try reflexivity. now elim (Hbare m). }
    unfold validateOperationValue. cbn [Path_ Value Op]. rewrite Hmap, Huri.
    rewrite andb_false_r.
    unfold Schema_ValidatePatchOperationValue, Schema_ValidatePatchOperation.
    cbn [patchLoop]. rewrite resolveAttribute_ContainsAttribute.
    fold p attributeName in Hattr. rewrite Hattr, Hc, Hv. reflexivity. }
  unfold validateOperation. rewrite Hres, Hval, ToLower_idempotent.
  cbv zeta. cbn [Op Value Path_]. fold p. rewrite Hvalue.
  assert (Hchecked : (if String.eqb (strings.ToLower (rawOp v)) PatchOperationAdd ||
                         String.eqb (strings.ToLower (rawOp v)) PatchOperationReplace
                      then @None ScimError
                      else if String.eqb (strings.ToLower (rawOp v)) PatchOperationRemove
                           then None
                           else Some (patchError errors.ScimErrorInvalidFilter index
                                        ", has an unrecognized operation type.")) = None).
  { unfold isKnownOp in Hk.
    destruct (String.eqb (strings.ToLower (rawOp v)) PatchOperationAdd ||
              String.eqb (strings.ToLower (rawOp v)) PatchOperationReplace); [reflexivity|].
    simpl in Hk. now rewrite Hk. }
  rewrite Hchecked. simpl. f_equal. f_equal.
  rewrite canonicalValue_extracted by now left.
  fold p. rewrite Hsub. unfold extracted, mget. simpl. fold attributeName.
  now rewrite String.eqb_refl.
Qed.

End PatchComposition.

Lemma Forall2_mlookup (R : CoreAttribute -> value -> Prop) (subs : list CoreAttribute) :
  forall out : gomap,
    map fst out = map name subs ->
    NoDup (map name subs) ->
    Forall2 (fun sub kv => R sub (snd kv)) subs out ->
    forall s, In s subs -> exists c, mlookup (name s) out = Some c /\ R s c.
Proof.
  induction subs as [|s0 subs IH]; intros out Hkeys Hnd Hall s Hin; [destruct Hin|].
  inversion Hall as [|s0' [k c] subs' out' HR Hrest]; subst.
  simpl in Hkeys. inversion Hkeys as [[Hk Hkeys']]. subst k.
  inversion Hnd as [|n ns Hn Hnd']; subst. simpl.
  destruct Hin as [<- | Hin].
  - rewrite String.eqb_refl. eauto.
  - destruct (String.eqb (name s0) (name s)) eqn:Es.
    + apply String.eqb_eq in Es. elim Hn. rewrite Es. now apply in_map.
    + now apply IH.
Qed.

Section PatchSubAttribute.

Context `{E : Externals}.
Context {F : strings.Folding}.

(** X17.  For an operation that is returned, whose path names a
    sub-attribute of a singular complex attribute of the resource type's
    schema (sub-attributes with distinct names, no schema prefix) and whose
    value is no mapping: when the path spells the sub-attribute's name as
    the schema does, the operation carries what the sub-attribute's
    validation returns for the value; when the path spells no
    sub-attribute's name exactly, differing in case for instance, the
    operation carries null. *)
Theorem patch_sub_attribute_value (t : ResourceType) (r : Request) (index : nat)
    (v : rawOperation) (vd : Validator) (attr : CoreAttribute) (op : PatchOperation) :
  NewPathValidator (rawPath v) (schemaWithCommon t) (getSchemaExtensions t r) = inr vd ->
  pathSubAttributeName (Validator_Path vd) <> "" ->
  AttributePath_URI (Path_AttributePath (Validator_Path vd)) = "" ->
  (forall m, rawValue v <> VMap m) ->
  ContainsAttribute (Attributes_ (schemaWithCommon t))
    (AttributeName (Path_AttributePath (Validator_Path vd))) = Some attr ->
  typ attr = attributeDataTypeComplex ->
  multiValued attr = false ->
  NoDup (map name (subAttributes attr)) ->
  validateOperation t r index v = Ok op ->
  (forall s, In s (subAttributes attr) ->
             name s = pathSubAttributeName (Validator_Path vd) ->
             validate s (rawValue v) = Ok (Value op)) /\
  (~ In (pathSubAttributeName (Validator_Path vd)) (map name (subAttributes attr)) ->
   Value op = VNil).
Proof.
  intros Hres Hsub Huri Hbare Hattr Hty Hmv Hnd Hop.
  set (p := Validator_Path vd) in *.
  set (attributeName := AttributeName (Path_AttributePath p)) in *.
  set (sub := pathSubAttributeName p) in *.
  destruct (validateOperation_resolved t r index v vd op Hres Hop) as [val [Hval ->]].
  fold p in Hval |- *. cbn [Value].
  assert (Hmap : operationMapValue p (rawValue v) = [(attributeName, VMap [(sub, rawValue v)])]).
  { unfold operationMapValue. fold sub attributeName.
    apply String.eqb_neq in Hsub. rewrite Hsub.
    destruct (rawValue v); try reflexivity. now elim (Hbare m). }
  unfold validateOperationValue in Hval. cbn [Path_ Value Op] in Hval.
  rewrite Hmap, Huri, andb_false_r in Hval.
  unfold Schema_ValidatePatchOperationValue, Schema_ValidatePatchOperation in Hval.
  cbn [patchLoop] in Hval. rewrite resolveAttribute_ContainsAttribute in Hval.
  fold p attributeName in Hattr. rewrite Hattr in Hval.
  destruct (cannotBePatched _ attr) eqn:Hc; [discriminate|].
  destruct (validate attr (VMap [(sub, rawValue v)])) as [newValue| |] eqn:Hv; try discriminate.
  inversion Hval; subst val; clear Hval.
  assert (Hro : isReadOnlyMutability (mutability attr) = false).
  { unfold cannotBePatched in Hc. now apply orb_false_iff in Hc. }
  rewrite validate_eq, Hro, Hmv in Hv. cbn [isNil negb] in Hv.
  unfold validateSingular, validateSingular_ in Hv. rewrite Hty in Hv.
  apply complexLoop_output in Hv; [|exact Hnd|intros s _ []].
  destruct Hv as [out [-> [Hkeys Hall]]]. simpl app in *.
  assert (Hcanon : canonicalValue p [(attributeName, VMap out)] (rawValue v) = mget sub out).
  { rewrite canonicalValue_extracted.
    - unfold extracted. fold attributeName sub. apply String.eqb_neq in Hsub. rewrite Hsub.
      unfold mget at 1. simpl. now rewrite String.eqb_refl.
    - right. exists out. fold attributeName. unfold mget. simpl.
      now rewrite String.eqb_refl. }
  rewrite Hcanon. split.
  - intros s Hs Hn.
    destruct (Forall2_mlookup
                (fun s0 c => validate s0 (hitOf (name s0) [(sub, rawValue v)]) = Ok c)
                (subAttributes attr) out Hkeys Hnd Hall s Hs) as [c [Hlook Hc']].
    unfold mget. rewrite <- Hn, Hlook. rewrite <- Hc'. simpl.
    now rewrite Hn, EqualFold_refl.
  - intros Hnot. unfold mget.
    destruct (mlookup sub out) as [c|] eqn:Hl; [|reflexivity].
    elim Hnot. rewrite <- Hkeys.
    apply (proj2 (mlookup_In_keys sub out)). eauto.
Qed.

End PatchSubAttribute.

(** ** PATCH at concrete inputs *)

Lemma validatePatch_composition_witness :
  validatePatch sampleResourceType tt (Decoded ["s"] [sampleReplaceActive])
    = Ok {| Schemas := ["s"];
            Operations := [{| Op := "replace"; Path_ := Some (samplePath "active" None);
                              Value := VBool true |}] |} /\
  Op {| Op := "replace"; Path_ := Some (samplePath "active" None); Value := VBool true |}
    = strings.ToLower (rawOp sampleReplaceActive).
Proof.
  split; [reflexivity|].
  destruct (validatePatch_composition (F:=asciiFolding) sampleResourceType tt ["s"] [sampleReplaceActive]
              {| Schemas := ["s"];
                 Operations := [{| Op := "replace"; Path_ := Some (samplePath "active" None);
                                   Value := VBool true |}] |}) as [_ Hops].
  exact (proj1 (Hops eq_refl 0 sampleReplaceActive _ eq_refl eq_refl)).
Defined.

Lemma unresolved_path_rejected_witness :
  isKnownOp (strings.ToLower (rawOp sampleRemoveNoPath)) = true /\
  validateOperation sampleResourceType tt 0 sampleRemoveNoPath
    = Err (invalidPathError 0 "empty path").
Proof.
  split; [reflexivity|].
  exact (unresolved_path_rejected (F:=asciiFolding) sampleResourceType tt 0 sampleRemoveNoPath eq_refl
           (or_introl eq_refl)).
Defined.

Lemma empty_path_passes_unvalidated_witness :
  validateOperation sampleResourceType tt 0 sampleAddNoPath
    = Ok {| Op := "add"; Path_ := None; Value := VMap [("nickName", VString "b")] |}.
Proof.
  exact (empty_path_passes_unvalidated (F:=asciiFolding) sampleResourceType tt 0 sampleAddNoPath "empty path"
           (or_introl eq_refl) eq_refl eq_refl).
Defined.

Lemma patch_bare_value_coerced_witness :
  validateOperation sampleResourceType tt 0 sampleReplaceActive
    = Ok {| Op := "replace"; Path_ := Some (samplePath "active" None); Value := VBool true |}.
Proof.
  apply (patch_bare_value_coerced (F:=asciiFolding) sampleResourceType tt 0 sampleReplaceActive
           {| Validator_Validate := None; Validator_Path := samplePath "active" None |}
           sampleActive (VBool true)); try reflexivity. discriminate.
Defined.

Lemma patch_sub_attribute_value_witness :
  validateOperation sampleResourceType tt 0 (sampleGivenName "GIVENNAME")
    = Ok {| Op := "replace"; Path_ := Some (samplePath "name" (Some "GIVENNAME"));
            Value := VNil |} /\
  validateOperation sampleResourceType tt 0 (sampleGivenName "givenName")
    = Ok {| Op := "replace"; Path_ := Some (samplePath "name" (Some "givenName"));
            Value := VString "Ada" |} /\
  Value {| Op := "replace"; Path_ := Some (samplePath "name" (Some "GIVENNAME"));
           Value := VNil |} = VNil.
Proof.
  split; [reflexivity|]. split; [reflexivity|].
  refine (proj2 (patch_sub_attribute_value (F:=asciiFolding) sampleResourceType tt 0 (sampleGivenName "GIVENNAME")
                   {| Validator_Validate := None;
                      Validator_Path := samplePath "name" (Some "GIVENNAME") |}
                   sampleName _ eq_refl _ eq_refl _ eq_refl eq_refl eq_refl _ eq_refl) _).
  - discriminate.
  - discriminate.
  - simpl. repeat constructor; simpl; intuition discriminate.
  - simpl. intuition discriminate.
Defined.

(** ** Validation of a resource with its extensions *)

Section ResourceValidation.

Context `{E : Externals}.
Context {F : strings.Folding}.

Lemma extensionsLoop_output (r : Request) (m : gomap) (exts : list SchemaExtension) :
  forall (acc out : gomap),
    extensionsLoop r m exts acc = Ok out ->
    (forall k, In k (keys out) <->
       In k (keys acc) \/
       exists ext, In ext exts /\ ID (Extension_Schema ext) = k /\ mget k m <> VNil) /\
    (forall k v, mlookup k out = Some v ->
       mlookup k acc = Some v \/
       exists ext ea, In ext exts /\ ID (Extension_Schema ext) = k /\ v = VMap ea /\
                      Schema_Validate (loaded r ext) (mget k m) = Ok ea) /\
    (forall ext, In ext exts -> mget (ID (Extension_Schema ext)) m <> VNil ->
       exists ea, Schema_Validate (loaded r ext) (mget (ID (Extension_Schema ext)) m) = Ok ea).
Proof.
  induction exts as [|ext exts IH]; simpl; intros acc out Hout.
  - inversion Hout; subst. repeat split.
    + auto.
    + intros [H | [ext [[] _]]]. exact H.
    + auto.
    + intros ext [].
  - destruct (isNil (mget (ID (Extension_Schema ext)) m)) eqn:Hnil.
    + assert (Hv : mget (ID (Extension_Schema ext)) m = VNil)
        by (destruct (mget _ m); try discriminate; reflexivity).
      destruct (Extension_Required ext); [discriminate|].
      destruct (IH _ _ Hout) as [Hkeys [Hlook Hsup]]. repeat split.
      * intros Hk. apply Hkeys in Hk. destruct Hk as [Hk | [e [He [Hid Hne]]]]; [now left|].
        right. exists e. auto.
      * intros [Hk | [e [[<- | He] [Hid Hne]]]]; apply Hkeys.
        -- now left.
        -- subst k. now elim Hne.
        -- right. exists e. auto.
      * intros k v Hk. destruct (Hlook k v Hk) as [Ha | [e [ea [He H']]]]; [now left|].
        right. exists e, ea. auto.
      * intros e [<- | He] Hne; [now elim Hne | now apply Hsup].
    + assert (Hne : mget (ID (Extension_Schema ext)) m <> VNil)
        by (intros Heq; rewrite Heq in Hnil; discriminate).
      assert (Hload : (if LoadDynamically ext
                       then Schema_Validate (LoadSchema ext r) (mget (ID (Extension_Schema ext)) m)
                       else Schema_Validate (Extension_Schema ext) (mget (ID (Extension_Schema ext)) m))
                      = Schema_Validate (loaded r ext) (mget (ID (Extension_Schema ext)) m)).
      { unfold loaded. now destruct (LoadDynamically ext). }
      rewrite Hload in Hout.
      destruct (Schema_Validate (loaded r ext) _) as [ea| |] eqn:Hv; try discriminate.
      destruct (IH _ _ Hout) as [Hkeys [Hlook Hsup]]. repeat split.
      * intros Hk. apply Hkeys in Hk. destruct Hk as [Hk | [e [He [Hid Hn]]]].
        -- apply keys_mset in Hk. destruct Hk as [-> | Hk]; [|now left].
           right. exists ext. auto.
        -- right. exists e. auto.
      * intros [Hk | [e [[<- | He] [Hid Hn]]]]; apply Hkeys.
        -- left. apply keys_mset. now right.
        -- left. apply keys_mset. now left.
        -- right. exists e. auto.
      * intros k v Hk. destruct (Hlook k v Hk) as [Ha | [e [ea' [He H']]]].
        -- rewrite mlookup_mset in Ha.
           destruct (String.eqb (ID (Extension_Schema ext)) k) eqn:Ek; [|now left].
           apply String.eqb_eq in Ek. inversion Ha; subst. right. exists ext, ea. auto.
        -- right. exists e, ea'. auto.
      * intros e [<- | He] Hn; [eauto | now apply Hsup].
Qed.

(** X18.  When [ResourceType.validate] accepts a document, the keys of the
    result are the names of the attributes of the base schema, the common
    attribute "externalId", and the ids of the configured extensions for
    which the document holds a value other than null under exactly that id;
    every such extension payload was accepted by the extension's schema
    (the loaded one when it loads dynamically); and each entry of the result
    comes from the base validation or is the validated mapping of such an
    extension. *)
Theorem resource_validate_output (t : ResourceType) (m out : gomap) (r : Request) :
  ResourceType_validate t (Some m) r = Ok out ->
  (forall k, In k (keys out) <->
     In k (map name (Attributes_ (ResourceType_Schema t))) \/ k = "externalId" \/
     exists ext, In ext (SchemaExtensions t) /\ ID (Extension_Schema ext) = k /\
                 mget k m <> VNil) /\
  (forall ext, In ext (SchemaExtensions t) -> mget (ID (Extension_Schema ext)) m <> VNil ->
     exists ea, Schema_Validate (loaded r ext) (mget (ID (Extension_Schema ext)) m) = Ok ea) /\
  (exists base, Schema_Validate (schemaWithCommon t) (VMap m) = Ok base /\
     forall k v, mlookup k out = Some v ->
       mlookup k base = Some v \/
       exists ext ea, In ext (SchemaExtensions t) /\ ID (Extension_Schema ext) = k /\
                      v = VMap ea /\ Schema_Validate (loaded r ext) (mget k m) = Ok ea).
Proof.
  unfold ResourceType_validate. intros Hout.
  destruct (Schema_Validate (schemaWithCommon t) (VMap m)) as [base| |] eqn:Hbase;
    try discriminate.
  destruct (extensionsLoop_output r m _ _ _ Hout) as [Hkeys [Hlook Hsup]].
  unfold Schema_Validate, Schema_validate in Hbase.
  destruct (validateLoop_output _ _ _ _ _ Hbase) as [Hbkeys _].
  split; [|split; [exact Hsup | exists base; split; [reflexivity | exact Hlook]]].
  intros k. rewrite Hkeys, Hbkeys. simpl. rewrite map_app, in_app_iff. simpl.
  intuition.
Qed.

Lemma extensionsLoop_required (r : Request) (m : gomap) (ext : SchemaExtension)
    (exts : list SchemaExtension) :
  In ext exts ->
  Extension_Required ext = true ->
  mget (ID (Extension_Schema ext)) m = VNil ->
  forall acc, refused (extensionsLoop r m exts acc).
Proof.
  intros Hin Hreq Hnil. induction exts as [|e exts IH]; simpl; intros acc; [destruct Hin|].
  destruct Hin as [-> | Hin].
  - rewrite Hnil, Hreq. exact I.
  - destruct (isNil (mget (ID (Extension_Schema e)) m)).
    + destruct (Extension_Required e); [exact I | now apply IH].
    + destruct (if LoadDynamically e then _ else _); [now apply IH | exact I..].
Qed.

(** X19.  A document that holds no value, or null, under the id of a
    required extension is never accepted by [ResourceType.validate]; when
    that extension is the first one configured and the base validation
    passes, the error is InvalidValue and names the extension.  A document
    that cannot be decoded is InvalidSyntax. *)
Theorem required_extension_missing (t : ResourceType) (m : gomap) (r : Request)
    (ext : SchemaExtension) :
  In ext (SchemaExtensions t) ->
  Extension_Required ext = true ->
  mget (ID (Extension_Schema ext)) m = VNil ->
  refused (ResourceType_validate t (Some m) r) /\
  (forall rest base, SchemaExtensions t = ext :: rest ->
     Schema_Validate (schemaWithCommon t) (VMap m) = Ok base ->
     ResourceType_validate t (Some m) r = Err (missingExtension ext)) /\
  ResourceType_validate t None r = Err errors.ScimErrorInvalidSyntax.
Proof.
  intros Hin Hreq Hnil. unfold ResourceType_validate. split; [|split].
  - destruct (Schema_Validate (schemaWithCommon t) (VMap m)); try exact I.
    now apply (extensionsLoop_required r m ext).
  - intros rest base Hexts ->. rewrite Hexts. simpl. now rewrite Hnil, Hreq.
  - reflexivity.
Qed.

End ResourceValidation.

Lemma resource_validate_output_witness :
  ResourceType_validate sampleExtendedType
    (Some [("userName", VString "bob");
           ("urn:ietf:params:scim:schemas:extension:enterprise:2.0:User",
            VMap [("manager", VString "274")])]) tt
    = Ok [("userName", VString "bob"); ("id", VNil); ("active", VNil); ("name", VNil);
          ("emails", VNil); ("employeeNumber", VNil); ("costCenter", VNil);
          ("externalId", VNil);
          ("urn:ietf:params:scim:schemas:extension:enterprise:2.0:User",
           VMap [("Manager", VString "274")])] /\
  exists ea, Schema_Validate (loaded tt sampleExtension)
               (mget (ID (Extension_Schema sampleExtension))
                  [("userName", VString "bob");
                   ("urn:ietf:params:scim:schemas:extension:enterprise:2.0:User",
                    VMap [("manager", VString "274")])]) = Ok ea.
Proof.
  split; [reflexivity|].
  destruct (resource_validate_output (F:=asciiFolding) sampleExtendedType
              [("userName", VString "bob");
               ("urn:ietf:params:scim:schemas:extension:enterprise:2.0:User",
                VMap [("manager", VString "274")])] _ tt eq_refl) as [_ [Hsup _]].
  apply (Hsup sampleExtension); [now left | discriminate].
Defined.

Lemma required_extension_missing_witness :
  ResourceType_validate sampleExtendedType (Some [("userName", VString "bob")]) tt
    = Err (missingExtension sampleExtension).
Proof.
  destruct (required_extension_missing (F:=asciiFolding) sampleExtendedType [("userName", VString "bob")] tt
              sampleExtension (or_introl eq_refl) eq_refl eq_refl) as [_ [Hfirst _]].
  exact (Hfirst [] _ eq_refl eq_refl).
Defined.

(** ** The schemas of a server *)

Lemma contains_In (arr : list string) (el : string) :
  contains arr el = true <-> In el arr.
Proof.
  induction arr as [|item arr IH]; simpl.
  - split; [discriminate | intros []].
  - rewrite orb_true_iff, String.eqb_eq, IH. reflexivity.
Qed.

Lemma findEntry_app (id : string) (es es' : list (string * Schema)) :
  findEntry id (es ++ es') =
    match findEntry id es with
    | Some sc => Some sc
    | None => findEntry id es'
    end.
Proof.
  unfold findEntry. induction es as [|[k sc] es IH]; simpl; [reflexivity|].
  destruct (String.eqb k id); [reflexivity | exact IH].
Qed.

Lemma findEntry_None (id : string) (es : list (string * Schema)) :
  findEntry id es = None <-> ~ In id (map fst es).
Proof.
  unfold findEntry. induction es as [|[k sc] es IH]; simpl.
  - intuition.
  - destruct (String.eqb k id) eqn:Ek; simpl.
    + apply String.eqb_eq in Ek. split; [discriminate | intros Hn; elim Hn; now left].
    + apply String.eqb_neq in Ek. rewrite IH. intuition.
Qed.

Lemma collected_step (visited : list (string * Schema)) (ids : list string)
    (schemas : list Schema) (id : string) (sc : Schema) :
  ID sc = id ->
  collected visited ids schemas ->
  collected (visited ++ [(id, sc)]) (ids ++ [id])
    (if negb (contains ids id) then schemas ++ [sc] else schemas)%list.
Proof.
  intros Hid [Hids [Hnd [Hiff Hfind]]]. unfold collected.
  split; [rewrite map_app, Hids; reflexivity|].
  destruct (contains ids id) eqn:Hc; simpl.
  - apply contains_In in Hc. split; [exact Hnd|]. split.
    + intros x. rewrite Hiff, in_app_iff. simpl. intuition. now subst x.
    + intros s Hs. rewrite findEntry_app, (Hfind s Hs). reflexivity.
  - assert (Hnot : ~ In id ids).
    { intros Hin. apply contains_In in Hin. congruence. }
    split; [|split].
    + rewrite map_app. simpl. apply NoDup_app; [exact Hnd | repeat constructor; intros [] |].
      intros x Hx [Hx' | []]. apply Hnot. apply Hiff. now rewrite Hid in Hx'; subst x.
    + intros x. rewrite map_app, !in_app_iff, Hiff. simpl. rewrite Hid. intuition.
    + intros s Hs. apply in_app_or in Hs. rewrite findEntry_app.
      destruct Hs as [Hs | [<- | []]].
      * now rewrite (Hfind s Hs).
      * assert (Hnone : findEntry (ID sc) visited = None).
        { apply findEntry_None. rewrite <- Hids, Hid. exact Hnot. }
        rewrite Hnone. unfold findEntry. simpl. now rewrite Hid, String.eqb_refl.
Qed.

Section ServerSchemaProperties.

Context `{E : Externals}.
Context {F : strings.Folding}.

Lemma getSchemasOfExtensions_collected (r : Request) (exts : list SchemaExtension) :
  (forall ext, In ext exts -> LoadDynamically ext = false) ->
  forall visited ids schemas,
    collected visited ids schemas ->
    collected
      (visited ++ map (fun ext => (ID (Extension_Schema ext), loaded r ext)) exts)
      (fst (getSchemasOfExtensions r exts ids schemas))
      (snd (getSchemasOfExtensions r exts ids schemas)).
Proof.
  induction exts as [|ext exts IH]; simpl; intros Hstatic visited ids schemas Hc.
  - now rewrite app_nil_r.
  - assert (Hl : loaded r ext = Extension_Schema ext).
    { unfold loaded. now rewrite (Hstatic ext (or_introl eq_refl)). }
    pose proof (collected_step visited ids schemas (ID (Extension_Schema ext))
                  (loaded r ext) (f_equal ID Hl) Hc) as Hstep.
    apply (IH (fun e He => Hstatic e (or_intror He))) in Hstep.
    rewrite <- app_assoc in Hstep. exact Hstep.
Qed.

Lemma getSchemasLoop_collected (r : Request) (rts : list ResourceType) :
  (forall rt ext, In rt rts -> In ext (SchemaExtensions rt) -> LoadDynamically ext = false) ->
  forall visited ids schemas,
    collected visited ids schemas ->
    collected (visited ++ registered r rts)
      (fst (getSchemasLoop r rts ids schemas))
      (snd (getSchemasLoop r rts ids schemas)).
Proof.
  induction rts as [|rt rts IH]; simpl; intros Hstatic visited ids schemas Hc.
  - now rewrite app_nil_r.
  - pose proof (collected_step visited ids schemas (ID (ResourceType_Schema rt))
                  (ResourceType_Schema rt) eq_refl Hc) as Hstep.
    apply (getSchemasOfExtensions_collected r (SchemaExtensions rt)
             (fun e He => Hstatic rt e (or_introl eq_refl) He)) in Hstep.
    destruct (getSchemasOfExtensions r (SchemaExtensions rt) _ _) as [ids' schemas'].
    simpl in Hstep.
    apply (IH (fun rt' e Hrt He => Hstatic rt' e (or_intror Hrt) He)) in Hstep.
    rewrite <- !app_assoc in Hstep. exact Hstep.
Qed.

Lemma getSchemaLoop_findEntry (id : string) (r : Request) (rts : list ResourceType) :
  getSchemaLoop id r rts =
    match findEntry id (registered r rts) with
    | Some sc => sc
    | None => emptySchema
    end.
Proof.
  induction rts as [|rt rts IH]; simpl; [reflexivity|].
  unfold findEntry at 1. simpl.
  destruct (String.eqb (ID (ResourceType_Schema rt)) id); [reflexivity|].
  fold (findEntry id (map (fun ext => (ID (Extension_Schema ext), loaded r ext))
                          (SchemaExtensions rt) ++ registered r rts)).
  rewrite findEntry_app, IH.
  assert (Hext : forall exts,
            getSchemaInExtensions id r exts =
            findEntry id (map (fun ext => (ID (Extension_Schema ext), loaded r ext)) exts)).
  { induction exts as [|ext exts IHe]; simpl; [reflexivity|].
    unfold findEntry. simpl.
    destruct (String.eqb (ID (Extension_Schema ext)) id); [reflexivity | exact IHe]. }
  rewrite Hext. now destruct (findEntry id (map _ (SchemaExtensions rt))).
Qed.

(** X20.  On a server none of whose extensions loads its schema
    dynamically, [getSchemas] returns schemas with pairwise distinct ids;
    the ids returned are exactly the ids of the schemas and extensions of
    the resource types; and [getSchema] on the id of a schema returned
    gives that schema back.  [getSchema] on an id that is not registered
    gives the empty schema. *)
Theorem getSchemas_distinct (s : Server) (r : Request) :
  allStatic s ->
  NoDup (map ID (getSchemas s r)) /\
  (forall id, In id (map ID (getSchemas s r)) <->
              In id (map fst (registered r (ResourceTypes s)))) /\
  (forall sc, In sc (getSchemas s r) -> getSchema s (ID sc) r = sc) /\
  (forall id, ~ In id (map fst (registered r (ResourceTypes s))) ->
              getSchema s id r = emptySchema).
Proof.
  intros Hstatic. unfold getSchemas, getSchema.
  assert (H0 : collected [] [] []).
  { unfold collected. simpl. repeat split; try constructor; intuition. }
  pose proof (getSchemasLoop_collected r (ResourceTypes s) Hstatic [] [] [] H0)
    as [Hids [Hnd [Hiff Hfind]]].
  simpl in Hids, Hfind. repeat split.
  - exact Hnd.
  - intros Hin. apply Hiff in Hin. now rewrite Hids in Hin.
  - intros Hin. apply Hiff. now rewrite Hids.
  - intros sc Hsc. rewrite getSchemaLoop_findEntry, (Hfind sc Hsc). reflexivity.
  - intros id Hid. rewrite getSchemaLoop_findEntry.
    apply findEntry_None in Hid. now rewrite Hid.
Qed.

End ServerSchemaProperties.

Lemma getSchemas_distinct_witness :
  getSchemas sampleServer tt = [sampleSchema; sampleEnterprise] /\
  NoDup (map ID (getSchemas sampleServer tt)) /\
  getSchema sampleServer (ID sampleEnterprise) tt = sampleEnterprise.
Proof.
  assert (Hstatic : allStatic sampleServer).
  { intros rt ext [<- | [<- | []]]; simpl; [intros [<- | []]; reflexivity | intros []]. }
  destruct (getSchemas_distinct sampleServer tt Hstatic) as [Hnd [_ [Hget _]]].
  split; [reflexivity|]. split; [exact Hnd|].
  apply Hget. simpl. auto.
Defined.

(** ** Query parameters *)

Section QueryProperties.

Context `{H : Helpers}.
Context {F : strings.Folding}.

(** X21.  Whatever the query holds, the parameters [parseRequestParams]
    returns have a count that is not negative and not above the default
    count (or is 0 when the default is negative), and a start index of at
    least 1. *)
Theorem parseRequestParams_bounds (defaultCount : Z) (query : string -> string)
    (p : ListRequestParams) :
  parseRequestParams defaultCount query = Ok p ->
  (0 <= Count p)%Z /\ (Count p <= Z.max 0 defaultCount)%Z /\ (1 <= StartIndex p)%Z.
Proof.
  unfold parseRequestParams.
  destruct (getIntQueryParam (query "count") "count" defaultCount) as [count countErr].
  destruct (getIntQueryParam (query "startIndex") "startIndex" defaultStartIndex)
    as [startIndex indexErr].
  match goal with |- context [if (1 <? ?n)%nat then _ else _] => destruct (1 <? n)%nat end;
    [discriminate|].
  destruct (getFilter query) as [filterExpr filterExprErr].
  destruct filterExprErr; [discriminate|].
  intros Hp. inversion Hp; subst p; clear Hp. simpl. unfold defaultStartIndex.
  destruct (count >? defaultCount)%Z eqn:Hgt;
    [apply Z.gtb_lt in Hgt | rewrite Z.gtb_ltb in Hgt; apply Z.ltb_ge in Hgt];
    repeat match goal with
           | |- context [(?a <? ?b)%Z] => destruct (Z.ltb_spec a b)
           end; lia.
Qed.

(** X22.  A count that is not an integer is not an error by itself: when
    the start index is absent or an integer and the filter raises no error,
    the request is accepted with the count 0.  The request is refused for
    its parameters only when neither the count nor the start index is an
    integer. *)
Theorem invalid_count_tolerated (defaultCount : Z) (query : string -> string) :
  query "count" <> "" ->
  Atoi (query "count") = None ->
  snd (getFilter query) = false ->
  (query "startIndex" = "" \/ (exists i, Atoi (query "startIndex") = Some i) ->
   exists p, parseRequestParams defaultCount query = Ok p /\ Count p = 0%Z) /\
  (query "startIndex" <> "" -> Atoi (query "startIndex") = None ->
   parseRequestParams defaultCount query = Err (ScimErrorBadParams ["count"; "startIndex"])).
Proof.
  intros Hc Hca Hf. unfold parseRequestParams, getIntQueryParam.
  apply String.eqb_neq in Hc. rewrite Hc, Hca.
  destruct (getFilter query) as [filterExpr filterExprErr]. simpl in Hf. subst filterExprErr.
  assert (Hcount : (if ((if (0 >? defaultCount)%Z then defaultCount else 0) <? 0)%Z
                    then 0 else if (0 >? defaultCount)%Z then defaultCount else 0)%Z = 0%Z).
  { destruct (0 >? defaultCount)%Z eqn:Hgt.
    - apply Z.gtb_lt in Hgt. apply Z.ltb_lt in Hgt. now rewrite Hgt.
    - reflexivity. }
  split.
  - intros [Hs | [i Hs]].
    + rewrite Hs. simpl. eexists. split; [reflexivity|]. exact Hcount.
    + rewrite Hs. destruct (String.eqb (query "startIndex") ""); simpl;
        eexists; (split; [reflexivity|]); exact Hcount.
  - intros Hs Hsa. apply String.eqb_neq in Hs. rewrite Hs, Hsa. reflexivity.
Qed.

(** ** Construction of a complex attribute *)

Lemma lookupName_None (n : string) (names : list (string * nat)) :
  lookupName n names = None <-> ~ In n (map fst names).
Proof.
  induction names as [|[k j] names IH]; simpl.
  - intuition.
  - destruct (String.eqb k n) eqn:Ek.
    + apply String.eqb_eq in Ek. split; [discriminate | intros Hn; elim Hn; now left].
    + apply String.eqb_neq in Ek. rewrite IH. intuition.
Qed.

Lemma subAttributesLoop_spec (subs : list SimpleParams) :
  forall (i : nat) (names : list (string * nat)) (sa r : list CoreAttribute),
    subAttributesLoop i subs names sa = Ok r <->
    NoDup (map (fun a => strings.ToLower (sp_name a)) subs) /\
    (forall a, In a subs -> ~ In (strings.ToLower (sp_name a)) (map fst names)) /\
    r = (sa ++ map subAttributeOf subs)%list.
Proof.
  induction subs as [|a subs IH]; simpl; intros i names sa r.
  - rewrite app_nil_r. split.
    + intros Hr. inversion Hr. repeat split; [constructor | intros a []].
    + intros [_ [_ ->]]. reflexivity.
  - destruct (lookupName (strings.ToLower (sp_name a)) names) as [j|] eqn:Hl.
    + split; [discriminate|]. intros [_ [Hfresh _]].
      assert (Hnone : lookupName (strings.ToLower (sp_name a)) names = None)
        by (apply lookupName_None, Hfresh; now left).
      congruence.
    + apply lookupName_None in Hl. rewrite IH. simpl. rewrite <- app_assoc. simpl. split.
      * intros [Hnd [Hfresh ->]]. repeat split.
        -- constructor; [|exact Hnd]. intros Hin. apply in_map_iff in Hin.
           destruct Hin as [b [Hb Hin]]. apply (Hfresh b Hin). left. now rewrite Hb.
        -- intros b [<- | Hb]; [exact Hl|]. intros Hin. apply (Hfresh b Hb). now right.
      * intros [Hnd [Hfresh ->]]. inversion Hnd as [|n ns Hn Hnd']; subst. repeat split.
        -- exact Hnd'.
        -- intros b Hb [Heq | Hin].
           ++ apply Hn. rewrite Heq. apply in_map_iff. exists b. auto.
           ++ apply (Hfresh b); [now right | exact Hin].
Qed.

(** X23.  [ComplexCoreAttribute] returns an attribute exactly when the name
    passes the name check and no two sub-attributes have names that are
    equal once in lower case; it panics otherwise.  The attribute returned
    is complex and has the sub-attributes of the parameters, in their order
    and under their names, each without sub-attributes of its own; their
    names are distinct, also without regard to case. *)
Theorem ComplexCoreAttribute_invariant (params : ComplexParams) :
  match ComplexCoreAttribute params with
  | Ok a =>
      checkAttributeName (cp_Name params) = true /\
      typ a = attributeDataTypeComplex /\
      name a = cp_Name params /\
      subAttributes a = map subAttributeOf (cp_SubAttributes params) /\
      Forall (fun sub => subAttributes sub = []) (subAttributes a) /\
      NoDup (map (fun sub => strings.ToLower (name sub)) (subAttributes a)) /\
      NoDup (map name (subAttributes a))
  | Err _ => False
  | Panic _ =>
      checkAttributeName (cp_Name params) = false \/
      ~ NoDup (map (fun a => strings.ToLower (sp_name a)) (cp_SubAttributes params))
  end.
Proof.
  unfold ComplexCoreAttribute.
  destruct (checkAttributeName (cp_Name params)); simpl; [|now left].
  destruct (subAttributesLoop 0 (cp_SubAttributes params) [] []) as [sa|e|msg] eqn:Hl.
  - apply subAttributesLoop_spec in Hl. destruct Hl as [Hnd [_ ->]]. simpl.
    assert (Hlow : map (fun sub => strings.ToLower (name sub))
                       (map subAttributeOf (cp_SubAttributes params))
                   = map (fun a => strings.ToLower (sp_name a)) (cp_SubAttributes params)).
    { rewrite map_map. reflexivity. }
    repeat split.
    + apply Forall_forall. intros sub Hin. apply in_map_iff in Hin.
      destruct Hin as [a [<- _]]. reflexivity.
    + now rewrite Hlow.
    + rewrite <- Hlow in Hnd. rewrite <- map_map in Hnd.
      now apply NoDup_map_inv in Hnd.
  - exfalso. clear -Hl. revert Hl. generalize 0 at 1. generalize (@nil (string * nat)).
    generalize (@nil CoreAttribute).
    induction (cp_SubAttributes params) as [|a subs IH]; simpl; intros sa names i;
      [discriminate|].
    destruct (lookupName _ names); [discriminate | apply IH].
  - right. intros Hnd.
    assert (Hok : subAttributesLoop 0 (cp_SubAttributes params) [] []
                  = Ok (map subAttributeOf (cp_SubAttributes params))).
    { apply subAttributesLoop_spec. repeat split; [exact Hnd | intros a _ []]. }
    congruence.
Qed.

End QueryProperties.

Lemma parseRequestParams_bounds_witness :
  parseRequestParams 100
    (fun key => if String.eqb key "count" then "500"
                else if String.eqb key "startIndex" then "-3" else "")
    = Ok {| Count := 100; Filter := None; StartIndex := 1 |} /\
  (0 <= 100)%Z /\ (100 <= Z.max 0 100)%Z /\ (1 <= 1)%Z.
Proof.
  split; [reflexivity|].
  exact (parseRequestParams_bounds 100
           (fun key => if String.eqb key "count" then "500"
                       else if String.eqb key "startIndex" then "-3" else "")
           {| Count := 100; Filter := None; StartIndex := 1 |} eq_refl).
Defined.

Lemma invalid_count_tolerated_witness :
  exists p, parseRequestParams 100 (fun key => if String.eqb key "count" then "many" else "")
              = Ok p /\ Count p = 0%Z.
Proof.
  destruct (invalid_count_tolerated 100
              (fun key => if String.eqb key "count" then "many" else "")) as [Hok _].
  - discriminate.
  - reflexivity.
  - reflexivity.
  - apply Hok. now left.
Defined.
